(** * Expense Tracker: a shallow embedding of [Expense-Tracker.py]

    The program is a menu loop over one pandas [DataFrame] that is loaded from
    and saved to [expenses.csv].  This development embeds

    - the scalar values the frame holds (text, numbers, missing values,
      timestamps and monthly periods),
    - the pandas operations the program calls ([read_csv], [to_csv],
      [concat], column assignment, [to_datetime], [groupby(..).sum()],
      [sort_values], [tail]),
    - the interpreter state the program acts on (the CSV file, the console,
      the clock and the store of frame objects, so that in-place column
      assignment is visible to every holder of the frame), and
    - the seven functions of the script, with their source names.

    Numbers.  The script stores amounts as binary64 floats.  Here an amount
    is an exact decimal fraction ([Dec.t]): parsing, printing, sums and
    comparisons are exact, binary rounding is not modelled, and there are no
    infinities; the missing value NaN is a value of its own ([VNaN]).

    Text.  A Python [str] is modelled as a [string] of bytes.

    pandas.  The operations are modelled as far as the program uses them;
    where pandas does more (other spellings of dates and numbers, columns of
    mixed objects), the definition says what is left out.

    Part I holds the definitions, Part II the properties. *)

From Stdlib Require Import ZArith QArith List String Ascii Bool Lia Permutation.
Import ListNotations.
Local Open Scope string_scope.
Local Open Scope list_scope.
Local Open Scope Z_scope.

(* ===================================================================== *)
(** * Part I: definitions *)
(* ===================================================================== *)

(** ** Exact decimal numbers *)

Module Dec.

(** A non-zero decimal digit. *)
Inductive nzdigit := D1 | D2 | D3 | D4 | D5 | D6 | D7 | D8 | D9.

Definition nz_val (r : nzdigit) : Z :=
  match r with
  | D1 => 1 | D2 => 2 | D3 => 3 | D4 => 4 | D5 => 5
  | D6 => 6 | D7 => 7 | D8 => 8 | D9 => 9
  end.

Definition nz_of (z : Z) : nzdigit :=
  match z with
  | 1 => D1 | 2 => D2 | 3 => D3 | 4 => D4 | 5 => D5
  | 6 => D6 | 7 => D7 | 8 => D8 | _ => D9
  end.

(** A decimal fraction in lowest terms: an integer, or a mantissa whose last
    digit is not zero over a positive power of ten.  Every number with a
    finite decimal expansion has exactly one representation, so equality of
    amounts is plain equality. *)
Inductive t :=
| Int (n : Z)                          (* n *)
| Frac (q : Z) (r : nzdigit) (k : nat) (* (10 q + r) / 10 ^ (k + 1) *).

Definition pow10 (n : nat) : Z := 10 ^ Z.of_nat n.

(** Mantissa and number of fraction digits. *)
Definition to_pair (d : t) : Z * nat :=
  match d with
  | Int n => (n, O)
  | Frac q r k => (10 * q + nz_val r, S k)
  end.

(** [of_pair m s] is m / 10^s in lowest terms. *)
Fixpoint of_pair (m : Z) (s : nat) : t :=
  match s with
  | O => Int m
  | S k => if m mod 10 =? 0 then of_pair (m / 10) k
           else Frac (m / 10) (nz_of (m mod 10)) k
  end.

(** m * 10^e. *)
Definition scale10 (m e : Z) : t :=
  if 0 <=? e then Int (m * 10 ^ e) else of_pair m (Z.to_nat (- e)).

Definition zero : t := Int 0.

Definition add (a b : t) : t :=
  let (m1, s1) := to_pair a in
  let (m2, s2) := to_pair b in
  of_pair (m1 * pow10 s2 + m2 * pow10 s1) (s1 + s2).

Definition leb (a b : t) : bool :=
  let (m1, s1) := to_pair a in
  let (m2, s2) := to_pair b in
  m1 * pow10 s2 <=? m2 * pow10 s1.

Definition ltb (a b : t) : bool := negb (leb b a).

Definition max (a b : t) : t := if leb a b then b else a.
Definition min (a b : t) : t := if leb a b then a else b.

(** The rational a decimal denotes. *)
Definition toQ (d : t) : Q :=
  let (m, s) := to_pair d in Qmake m (Z.to_pos (pow10 s)).

Definition sum (l : list t) : t := fold_left add l zero.

(** Two pairs that denote the same number. *)
Definition same (p q : Z * nat) : Prop :=
  fst p * pow10 (snd q) = fst q * pow10 (snd p).

(** Sum of two pairs, not reduced. *)
Definition padd (p q : Z * nat) : Z * nat :=
  (fst p * pow10 (snd q) + fst q * pow10 (snd p), (snd p + snd q)%nat).

End Dec.

(** ** Characters and text *)

Definition nl : string := String "010"%char EmptyString.
Definition dquote : ascii := "034"%char.

(** [str.isspace] on the ASCII range: TAB, LF, VT, FF, CR, FS, GS, RS, US and
    the space. *)
Definition is_space (c : ascii) : bool :=
  let n := nat_of_ascii c in
  ((9 <=? n) && (n <=? 13) || (28 <=? n) && (n <=? 32))%nat.

Definition digit_val (c : ascii) : option Z :=
  let n := nat_of_ascii c in
  if ((48 <=? n) && (n <=? 57))%nat then Some (Z.of_nat n - 48) else None.

Definition digit_char (d : Z) : ascii := ascii_of_nat (Z.to_nat (48 + d mod 10)).

Fixpoint lstrip (s : string) : string :=
  match s with
  | String c r => if is_space c then lstrip r else s
  | EmptyString => EmptyString
  end.

Fixpoint rstrip (s : string) : string :=
  match s with
  | String c r =>
      match rstrip r with
      | EmptyString => if is_space c then EmptyString else String c EmptyString
      | r' => String c r'
      end
  | EmptyString => EmptyString
  end.

(** [str.strip()] *)
Definition strip (s : string) : string := rstrip (lstrip s).

Definition lower (c : ascii) : ascii :=
  let n := nat_of_ascii c in
  if ((65 <=? n) && (n <=? 90))%nat then ascii_of_nat (n + 32) else c.

Fixpoint lower_string (s : string) : string :=
  match s with
  | String c r => String (lower c) (lower_string r)
  | EmptyString => EmptyString
  end.

Fixpoint mem_string (s : string) (l : list string) : bool :=
  match l with
  | [] => false
  | x :: r => String.eqb s x || mem_string s r
  end.

Fixpoint has_char (p : ascii -> bool) (s : string) : bool :=
  match s with
  | String c r => p c || has_char p r
  | EmptyString => false
  end.

Fixpoint join (sep : string) (l : list string) : string :=
  match l with
  | [] => EmptyString
  | [x] => x
  | x :: r => (x ++ sep ++ join sep r)%string
  end.

(** ** Decimal literals: [float(s)], [repr(x)] and the [.2f] format *)

(** Reads a run of digits, continuing the mantissa [acc]; returns the
    mantissa, the number of digits read and the rest. *)
Fixpoint take_digits (s : string) (acc : Z) (n : nat) : Z * nat * string :=
  match s with
  | String c r =>
      match digit_val c with
      | Some d => take_digits r (10 * acc + d) (S n)
      | None => (acc, n, s)
      end
  | EmptyString => (acc, n, s)
  end.

Definition take_sign (s : string) : bool * string :=
  match s with
  | String "-"%char r => (true, r)
  | String "+"%char r => (false, r)
  | _ => (false, s)
  end.

(** An optional exponent part, [e] or [E], an optional sign, digits. *)
Definition take_exponent (s : string) : option (Z * string) :=
  match s with
  | String c r =>
      if (Ascii.eqb c "e" || Ascii.eqb c "E")%bool then
        let (neg, r1) := take_sign r in
        let '(v, n, r2) := take_digits r1 0 0 in
        if (n =? 0)%nat then None else Some (if neg then - v else v, r2)
      else Some (0, s)
  | EmptyString => Some (0, s)
  end.

(** Python's [float(s)] on decimal literals: surrounding whitespace, a sign,
    digits with an optional point (at least one digit in all), an optional
    exponent.  [None] stands for [ValueError].  Python accepts a few more
    spellings, which [float_unmodelled] below fences off. *)
Definition py_float (s : string) : option Dec.t :=
  let (neg, s1) := take_sign (strip s) in
  let '(ip, ni, s2) := take_digits s1 0 0 in
  let '(m, nf, s3) :=
    match s2 with
    | String "."%char r => take_digits r ip 0
    | _ => (ip, O, s2)
    end in
  if (ni + nf =? 0)%nat then None
  else match take_exponent s3 with
       | Some (e, EmptyString) =>
           Some (Dec.scale10 (if neg then - m else m) (e - Z.of_nat nf))
       | _ => None
       end.

(** The spellings [float] accepts that [py_float] does not follow: the words
    inf, infinity and nan (in any letter case, with a sign), an underscore
    between digits, and digits or whitespace outside ASCII. *)
Definition float_unmodelled (s : string) : bool :=
  mem_string (snd (take_sign (lower_string (strip s))))
             ["inf"; "infinity"; "nan"] ||
  has_char (fun c => Ascii.eqb c "_" || (127 <? nat_of_ascii c)%nat) s.


(** Decimal digits of a natural number, most significant first. *)
Fixpoint show_digits (fuel : nat) (n : Z) (acc : string) : string :=
  match fuel with
  | O => String (digit_char n) acc
  | S f => if n <? 10 then String (digit_char n) acc
           else show_digits f (n / 10) (String (digit_char n) acc)
  end.

Definition show_nat (n : Z) : string :=
  show_digits (Z.to_nat (Z.log2 n)) n EmptyString.

(** Exactly [s] digits of [r], with leading zeros. *)
Fixpoint show_frac (s : nat) (r : Z) (acc : string) : string :=
  match s with
  | O => acc
  | S k => show_frac k (r / 10) (String (digit_char r) acc)
  end.

Definition show_sign (m : Z) : string := if m <? 0 then "-" else EmptyString.

(** [repr(x)] of a float, as [to_csv] writes a float cell: the shortest
    literal that reads back as [x], always with a point.  Python switches to
    exponent notation below 1e-4 and from 1e16 on; the positional spelling is
    used throughout here (both spellings read back as the same number). *)
Definition repr (d : Dec.t) : string :=
  let (m, s) := Dec.to_pair d in
  let a := Z.abs m in
  (show_sign m ++ show_nat (a / Dec.pow10 s) ++ "." ++
   match s with
   | O => "0"
   | _ => show_frac s (a mod Dec.pow10 s) EmptyString
   end)%string.

(** [a / b] rounded to the nearest integer, ties to even ([0 < b]). *)
Definition round_half_even (a b : Z) : Z :=
  let f := a / b in
  let r := 2 * (a mod b) in
  if r <? b then f
  else if b <? r then f + 1
  else if Z.even f then f else f + 1.

(** [f"{x:.2f}"]: two fraction digits, correctly rounded, ties to even. *)
Definition format_2f (q : Q) : string :=
  let c := round_half_even (100 * Z.abs (Qnum q)) (Zpos (Qden q)) in
  (show_sign (Qnum q) ++
   show_nat (c / 100) ++ "." ++ show_frac 2 (c mod 100) EmptyString)%string.

(** ** Calendar dates *)

Record date := mkDate { year : Z; month : Z; day : Z }.

Definition is_leap (y : Z) : bool :=
  (y mod 4 =? 0) && (negb (y mod 100 =? 0) || (y mod 400 =? 0)).

Definition days_in_month (y m : Z) : Z :=
  match m with
  | 1 | 3 | 5 | 7 | 8 | 10 | 12 => 31
  | 4 | 6 | 9 | 11 => 30
  | 2 => if is_leap y then 29 else 28
  | _ => 0
  end.

Definition valid_date (d : date) : bool :=
  (1 <=? year d) && (year d <=? 9999) &&
  (1 <=? month d) && (month d <=? 12) &&
  (1 <=? day d) && (day d <=? days_in_month (year d) (month d)).

Definition date_leb (a b : date) : bool :=
  (year a <? year b) ||
  (year a =? year b) &&
  ((month a <? month b) || (month a =? month b) && (day a <=? day b)).

(** The days a nanosecond [Timestamp] can hold: 1677-09-22 to 2262-04-11. *)
Definition in_timestamp_range (d : date) : bool :=
  date_leb (mkDate 1677 9 22) d && date_leb d (mkDate 2262 4 11).

(** [d.strftime("%Y-%m-%d")] *)
Definition strftime_ymd (d : date) : string :=
  (show_frac 4 (year d) EmptyString ++ "-" ++
   show_frac 2 (month d) EmptyString ++ "-" ++
   show_frac 2 (day d) EmptyString)%string.

(** Reads exactly [n] digits. *)
Fixpoint take_n_digits (n : nat) (s : string) (acc : Z) : option (Z * string) :=
  match n with
  | O => Some (acc, s)
  | S k =>
      match s with
      | String c r =>
          match digit_val c with
          | Some d => take_n_digits k r (10 * acc + d)
          | None => None
          end
      | EmptyString => None
      end
  end.

(** A date written YYYY-MM-DD. *)
Definition parse_iso_date (s : string) : option date :=
  match take_n_digits 4 s 0 with
  | Some (y, String "-"%char s1) =>
      match take_n_digits 2 s1 0 with
      | Some (m, String "-"%char s2) =>
          match take_n_digits 2 s2 0 with
          | Some (d, EmptyString) =>
              let dt := mkDate y m d in
              if valid_date dt then Some dt else None
          | _ => None
          end
      | _ => None
      end
  | _ => None
  end.

(** ** Cell values, series and frames *)

(** What a cell of the frame can hold.  [VNaN] is the missing value (NaN in a
    float or object column, NaT in a datetime or period column).  int64 and
    float64 numbers are not told apart. *)
Inductive value :=
| VStr (s : string)
| VNum (x : Dec.t)
| VBool (b : bool)
| VTimestamp (d : date)          (* midnight of that day *)
| VPeriod (y m : Z)              (* a calendar month, [Period(freq="M")] *)
| VNaN.

Definition Series := list value.

(** A frame: its columns in order, each with its cells in row order.  The
    row index is always 0 .. n-1 in this program and is left implicit. *)
Definition DataFrame := list (string * Series).

(** A series indexed by group key, as [groupby(..).sum()] returns it. *)
Definition KeyedSeries := list (value * Dec.t).

(** The exceptions the program can end with.  [Unmodelled] marks the cases
    this development does not follow Python and pandas into (see
    [to_datetime1], [groupby_sum_from] and [amount_loop]); no statement
    below is about them. *)
Inductive exn :=
| EOFError                            (* input() at the end of the input *)
| EmptyDataError                      (* read_csv: no columns to parse *)
| ParserError (expected saw : nat)    (* read_csv: a record too wide *)
| ParserEOFInString                   (* read_csv: EOF inside a quoted field *)
| KeyError (k : string)               (* no such column *)
| DateParseError (s : string)         (* to_datetime: not a date *)
| OutOfBoundsDatetime (s : string)    (* to_datetime: outside the range *)
| TypeError
| Unmodelled.

Inductive result (A : Type) :=
| Ok (a : A)
| Raise (e : exn).
Arguments Ok {A} a.
Arguments Raise {A} e.

Definition columns (df : DataFrame) : list string := map fst df.

(** [len(df)]: the number of rows. *)
Definition nrows (df : DataFrame) : nat :=
  match df with
  | [] => O
  | (_, s) :: _ => List.length s
  end.

(** [df.empty]: some axis has length 0. *)
Definition df_empty (df : DataFrame) : bool :=
  match df with
  | [] => true
  | _ => (nrows df =? 0)%nat
  end.

(** [df[c]] *)
Fixpoint get_col (c : string) (df : DataFrame) : result Series :=
  match df with
  | [] => Raise (KeyError c)
  | (c', s) :: r => if String.eqb c c' then Ok s else get_col c r
  end.

(** [df[c] = s]: replaces the column in place, or appends a new last one. *)
Fixpoint set_col (c : string) (s : Series) (df : DataFrame) : DataFrame :=
  match df with
  | [] => [(c, s)]
  | (c', s') :: r =>
      if String.eqb c c' then (c', s) :: r else (c', s') :: set_col c s r
  end.

(** [pd.DataFrame(columns=cols)] *)
Definition empty_frame (cols : list string) : DataFrame :=
  map (fun c => (c, [])) cols.

(** One cell per column name: the cells of row [i]. *)
Definition row_at (i : nat) (df : DataFrame) : list (string * value) :=
  map (fun cs => (fst cs, nth i (snd cs) VNaN)) df.

Fixpoint dict_get (c : string) (row : list (string * value)) : value :=
  match row with
  | [] => VNaN
  | (c', v) :: r => if String.eqb c c' then v else dict_get c r
  end.

(** [pd.concat([df, pd.DataFrame([row])], ignore_index=True)]: the columns of
    [df] in their order, then the keys of [row] that [df] does not have; one
    more row, missing cells filled with NaN. *)
Definition concat_row (df : DataFrame) (row : list (string * value)) : DataFrame :=
  map (fun cs => (fst cs, snd cs ++ [dict_get (fst cs) row])) df ++
  map (fun cv => (fst cv, repeat VNaN (nrows df) ++ [snd cv]))
      (filter (fun cv => negb (mem_string (fst cv) (columns df))) row).

(** [df.tail(n)] *)
Definition tail (n : nat) (df : DataFrame) : DataFrame :=
  map (fun cs => (fst cs, skipn (List.length (snd cs) - n) (snd cs))) df.

(** *** Dates in a column *)

(** [pd.to_datetime] on one cell.  Text is read as YYYY-MM-DD; pandas accepts
    other spellings of a date too (with a time of day, with slashes, with
    month names), and every spelling but YYYY-MM-DD counts as a parse failure
    here.  A number is read by pandas as nanoseconds since 1970, which gives
    a time of day that [VTimestamp] cannot hold: not modelled. *)
Definition to_datetime1 (v : value) : result value :=
  match v with
  | VStr s =>
      match parse_iso_date s with
      | Some d => if in_timestamp_range d then Ok (VTimestamp d)
                  else Raise (OutOfBoundsDatetime s)
      | None => Raise (DateParseError s)
      end
  | VTimestamp d => Ok (VTimestamp d)
  | VNaN => Ok VNaN
  | VNum _ => Raise Unmodelled
  | VBool _ | VPeriod _ _ => Raise TypeError
  end.

Fixpoint to_datetime (s : Series) : result Series :=
  match s with
  | [] => Ok []
  | v :: r =>
      match to_datetime1 v with
      | Ok v' => match to_datetime r with
                 | Ok r' => Ok (v' :: r')
                 | Raise e => Raise e
                 end
      | Raise e => Raise e
      end
  end.

(** [s.dt.to_period("M")] on a datetime column. *)
Definition to_period_M (s : Series) : Series :=
  map (fun v => match v with
                | VTimestamp d => VPeriod (year d) (month d)
                | _ => VNaN
                end) s.

(** *** Ordering of group keys *)

Fixpoint string_leb (a b : string) : bool :=
  match a, b with
  | EmptyString, _ => true
  | String _ _, EmptyString => false
  | String x a', String y b' =>
      let nx := nat_of_ascii x in
      let ny := nat_of_ascii y in
      (nx <? ny)%nat || (nx =? ny)%nat && string_leb a' b'
  end.

Definition value_rank (v : value) : Z :=
  match v with
  | VBool _ => 0
  | VNum _ => 1
  | VStr _ => 2
  | VTimestamp _ => 3
  | VPeriod _ _ => 4
  | VNaN => 5
  end.

(** The order [groupby] sorts its keys in: numbers by value, text by code
    point, timestamps and periods chronologically. *)
Definition value_leb (a b : value) : bool :=
  match a, b with
  | VStr x, VStr y => string_leb x y
  | VNum x, VNum y => Dec.leb x y
  | VBool x, VBool y => implb x y
  | VTimestamp x, VTimestamp y => date_leb x y
  | VPeriod y1 m1, VPeriod y2 m2 => (y1 <? y2) || (y1 =? y2) && (m1 <=? m2)
  | _, _ => value_rank a <=? value_rank b
  end.

Definition value_eqb (a b : value) : bool := value_leb a b && value_leb b a.

(** *** Group by a key column and sum *)

(** Adds amount [a] to the group of key [k], keeping the groups sorted. *)
Fixpoint group_add (k : value) (a : Dec.t) (g : KeyedSeries) : KeyedSeries :=
  match g with
  | [] => [(k, a)]
  | (k', t) :: r =>
      if value_eqb k k' then (k', Dec.add t a) :: r
      else if value_leb k k' then (k, a) :: g
      else (k', t) :: group_add k a r
  end.

(** [df.groupby(key)["Amount"].sum()] over the key and amount columns, row
    by row: rows whose key is missing are dropped, a missing amount adds
    nothing, the groups come out sorted by key.  Amount cells that are not
    numbers (an Amount column of text) are not modelled. *)
Fixpoint groupby_sum_from (keys amounts : Series) (g : KeyedSeries)
  : result KeyedSeries :=
  match keys, amounts with
  | k :: ks, a :: az =>
      match k, a with
      | VNaN, _ => groupby_sum_from ks az g
      | _, VNum x => groupby_sum_from ks az (group_add k x g)
      | _, VNaN => groupby_sum_from ks az (group_add k Dec.zero g)
      | _, _ => Raise Unmodelled
      end
  | _, _ => Ok g
  end.

Definition groupby_sum (keys amounts : Series) : result KeyedSeries :=
  groupby_sum_from keys amounts [].

(** [df.groupby(key)["Amount"].sum()]: [KeyError] when a column is not
    there. *)
Definition groupby_amount (key : string) (df : DataFrame) : result KeyedSeries :=
  match get_col key df with
  | Raise e => Raise e
  | Ok keys =>
      match get_col "Amount" df with
      | Raise e => Raise e
      | Ok amounts => groupby_sum keys amounts
      end
  end.

(** [s.sort_values(ascending=False)]: largest total first.  pandas does not
    fix the order among equal totals (its default sort is not stable); here
    they keep their order. *)
Fixpoint insert_desc (x : value * Dec.t) (l : KeyedSeries) : KeyedSeries :=
  match l with
  | [] => [x]
  | y :: r => if Dec.ltb (snd x) (snd y) then y :: insert_desc x r else x :: l
  end.

Fixpoint sort_values_desc (l : KeyedSeries) : KeyedSeries :=
  match l with
  | [] => []
  | x :: r => insert_desc x (sort_values_desc r)
  end.

(** *** numpy reductions over [df["Amount"].values] *)

(** A float result: a number, or NaN. *)
Inductive stat :=
| SNum (q : Q)
| SNaN.

Fixpoint numbers_of (s : Series) : result (option (list Dec.t)) :=
  match s with
  | [] => Ok (Some [])
  | VNum x :: r =>
      match numbers_of r with
      | Ok (Some l) => Ok (Some (x :: l))
      | other => other
      end
  | VNaN :: r =>
      match numbers_of r with
      | Ok _ => Ok None
      | other => other
      end
  | _ => Raise Unmodelled
  end.

Definition fold1 (f : Dec.t -> Dec.t -> Dec.t) (l : list Dec.t) : Dec.t :=
  match l with
  | [] => Dec.zero
  | x :: r => fold_left f r x
  end.

(** [amounts.sum()], [np.mean], [np.max], [np.min]: NaN as soon as one
    amount is NaN. *)
Definition np_reduce (f : list Dec.t -> Q) (s : Series) : result stat :=
  match numbers_of s with
  | Ok (Some l) => Ok (SNum (f l))
  | Ok None => Ok SNaN
  | Raise e => Raise e
  end.

Definition np_sum : Series -> result stat :=
  np_reduce (fun l => Dec.toQ (Dec.sum l)).
Definition np_mean : Series -> result stat :=
  np_reduce (fun l => (Dec.toQ (Dec.sum l) / inject_Z (Z.of_nat (List.length l)))%Q).
Definition np_max : Series -> result stat :=
  np_reduce (fun l => Dec.toQ (fold1 Dec.max l)).
Definition np_min : Series -> result stat :=
  np_reduce (fun l => Dec.toQ (fold1 Dec.min l)).

Definition format_stat (x : stat) : string :=
  match x with
  | SNum q => format_2f q
  | SNaN => "nan"
  end.

(** ** Writing a frame as CSV: [df.to_csv(path, index=False)] *)

Definition comma : ascii := ","%char.
Definition LF : ascii := "010"%char.
Definition CR : ascii := "013"%char.

Definition is_special (c : ascii) : bool :=
  Ascii.eqb c comma || Ascii.eqb c dquote || Ascii.eqb c LF || Ascii.eqb c CR.

Fixpoint escape_quotes (s : string) : string :=
  match s with
  | String c r =>
      if Ascii.eqb c dquote then String dquote (String dquote (escape_quotes r))
      else String c (escape_quotes r)
  | EmptyString => EmptyString
  end.

(** Minimal quoting: a field is quoted when it holds the delimiter, a quote
    or a line break; quotes inside are doubled. *)
Definition quote_field (s : string) : string :=
  if has_char is_special s
  then String dquote (escape_quotes s ++ String dquote EmptyString)
  else s.

(** One record and its line end.  A record that is one empty field is
    written as a pair of quotes. *)
Definition write_row (fields : list string) : string :=
  match fields with
  | [EmptyString] => String dquote (String dquote nl)
  | _ => (join "," (map quote_field fields) ++ nl)%string
  end.

Definition is_datetime_col (s : Series) : bool :=
  forallb (fun v => match v with VTimestamp _ | VNaN => true | _ => false end) s.

(** The text of a cell.  A timestamp is written as a date in a datetime
    column and with its time of day in a column of mixed objects; a missing
    value is written as nothing. *)
Definition cell_text (datetime_col : bool) (v : value) : string :=
  match v with
  | VStr s => s
  | VNum x => repr x
  | VBool b => if b then "True" else "False"
  | VTimestamp d =>
      if datetime_col then strftime_ymd d
      else (strftime_ymd d ++ " 00:00:00")%string
  | VPeriod y m =>
      (show_frac 4 y EmptyString ++ "-" ++ show_frac 2 m EmptyString)%string
  | VNaN => EmptyString
  end.

Definition col_texts (s : Series) : list string :=
  map (cell_text (is_datetime_col s)) s.

(** The first [n] rows of a list of columns. *)
Fixpoint rows_of (n : nat) (cols : list (list string)) : list (list string) :=
  match n with
  | O => []
  | S k => map (hd EmptyString) cols :: rows_of k (map (@tl string) cols)
  end.

Fixpoint concat_strings (l : list string) : string :=
  match l with
  | [] => EmptyString
  | x :: r => (x ++ concat_strings r)%string
  end.

Definition to_csv (df : DataFrame) : string :=
  (write_row (columns df) ++
   concat_strings
     (map write_row
        (rows_of (nrows df) (map (fun cs => col_texts (snd cs)) df))))%string.

(** ** Reading CSV: [pd.read_csv(path)] *)

(** *** The tokenizer: a character-driven state machine *)

Inductive tstate :=
| START_RECORD
| WHITESPACE_LINE
| START_FIELD
| IN_FIELD
| IN_QUOTED_FIELD
| QUOTE_IN_QUOTED_FIELD
| EAT_CRNL
| EAT_CRNL_NOP.

Record tok := mkTok {
  st : tstate;
  field : string;             (* the field being read *)
  row : list string;          (* the fields of the record being read *)
  rows : list (list string)   (* the records read *)
}.

Definition tok_init : tok := mkTok START_RECORD EmptyString [] [].

Definition set_st (s : tstate) (t : tok) : tok :=
  mkTok s (field t) (row t) (rows t).
Definition push (c : ascii) (t : tok) : tok :=
  mkTok (st t) (field t ++ String c EmptyString) (row t) (rows t).
Definition drop_field (t : tok) : tok :=
  mkTok (st t) EmptyString (row t) (rows t).
Definition end_field (t : tok) : tok :=
  mkTok (st t) EmptyString (row t ++ [field t]) (rows t).
Definition end_line (t : tok) : tok :=
  mkTok (st t) (field t) [] (rows t ++ [row t]).

Definition is_blank (c : ascii) : bool :=
  Ascii.eqb c " " || Ascii.eqb c "009".

Definition in_field (c : ascii) (t : tok) : tok :=
  if Ascii.eqb c LF then set_st START_RECORD (end_line (end_field t))
  else if Ascii.eqb c CR then set_st EAT_CRNL (end_field t)
  else if Ascii.eqb c comma then set_st START_FIELD (end_field t)
  else set_st IN_FIELD (push c t).

Definition start_field (c : ascii) (t : tok) : tok :=
  if Ascii.eqb c dquote then set_st IN_QUOTED_FIELD t
  else in_field c t.

(** Empty lines and lines of blanks are skipped. *)
Definition start_record (c : ascii) (t : tok) : tok :=
  if Ascii.eqb c LF then set_st START_RECORD t
  else if Ascii.eqb c CR then set_st EAT_CRNL_NOP t
  else if is_blank c then set_st WHITESPACE_LINE (push c t)
  else start_field c t.

(** In a line that began with blanks: when something else follows, the line
    is a record after all and the blanks are the start of its first field. *)
Definition whitespace_line (c : ascii) (t : tok) : tok :=
  if Ascii.eqb c LF then set_st START_RECORD (drop_field t)
  else if Ascii.eqb c CR then set_st EAT_CRNL_NOP (drop_field t)
  else if is_blank c then push c t
  else in_field c t.

Definition in_quoted_field (c : ascii) (t : tok) : tok :=
  if Ascii.eqb c dquote then set_st QUOTE_IN_QUOTED_FIELD t
  else push c t.

Definition quote_in_quoted_field (c : ascii) (t : tok) : tok :=
  if Ascii.eqb c dquote then set_st IN_QUOTED_FIELD (push c t)
  else in_field c t.

Definition eat_crnl (c : ascii) (t : tok) : tok :=
  if Ascii.eqb c LF then set_st START_RECORD (end_line t)
  else start_record c (set_st START_RECORD (end_line t)).

Definition eat_crnl_nop (c : ascii) (t : tok) : tok :=
  if Ascii.eqb c LF then set_st START_RECORD t
  else start_record c (set_st START_RECORD t).

Definition tok_step (t : tok) (c : ascii) : tok :=
  match st t with
  | START_RECORD => start_record c t
  | WHITESPACE_LINE => whitespace_line c t
  | START_FIELD => start_field c t
  | IN_FIELD => in_field c t
  | IN_QUOTED_FIELD => in_quoted_field c t
  | QUOTE_IN_QUOTED_FIELD => quote_in_quoted_field c t
  | EAT_CRNL => eat_crnl c t
  | EAT_CRNL_NOP => eat_crnl_nop c t
  end.

Fixpoint tok_run (s : string) (t : tok) : tok :=
  match s with
  | String c r => tok_run r (tok_step t c)
  | EmptyString => t
  end.

(** At the end of the input an open record is closed; an open quote is an
    error. *)
Definition tok_eof (t : tok) : result (list (list string)) :=
  match st t with
  | START_RECORD | WHITESPACE_LINE | EAT_CRNL_NOP => Ok (rows t)
  | IN_QUOTED_FIELD => Raise ParserEOFInString
  | IN_FIELD | START_FIELD | QUOTE_IN_QUOTED_FIELD =>
      Ok (rows (end_line (end_field t)))
  | EAT_CRNL => Ok (rows (end_line t))
  end.

Definition tokenize (s : string) : result (list (list string)) :=
  tok_eof (tok_run s tok_init).

(** *** Records to columns *)

(** The strings [read_csv] takes for a missing value. *)
Definition na_values : list string :=
  [ EmptyString; "#N/A"; "#N/A N/A"; "#NA"; "-1.#IND"; "-1.#QNAN"; "-NaN";
    "-nan"; "1.#IND"; "1.#QNAN"; "<NA>"; "N/A"; "NA"; "NULL"; "NaN"; "None";
    "n/a"; "nan"; "null" ].

Definition is_na (s : string) : bool := mem_string s na_values.

Definition bool_text (s : string) : option bool :=
  if mem_string s ["True"; "TRUE"; "true"] then Some true
  else if mem_string s ["False"; "FALSE"; "false"] then Some false
  else None.

Definition is_some {A} (o : option A) : bool :=
  match o with Some _ => true | None => false end.

(** Type inference for one column: numbers when every field that is present
    reads as a number, else booleans when every one reads as a boolean, else
    text; a missing field is NaN in each case.  A number is what [py_float]
    reads; the spellings of infinity, which [read_csv] takes for numbers
    too, are kept as text here (see [inf_text]). *)
Definition infer_column (fields : list string) : Series :=
  let present := filter (fun f => negb (is_na f)) fields in
  if forallb (fun f => is_some (py_float f)) present then
    map (fun f => match py_float f with
                  | Some x => if is_na f then VNaN else VNum x
                  | None => VNaN
                  end) fields
  else if forallb (fun f => is_some (bool_text f)) present then
    map (fun f => match bool_text f with
                  | Some b => if is_na f then VNaN else VBool b
                  | None => VNaN
                  end) fields
  else map (fun f => if is_na f then VNaN else VStr f) fields.

Fixpoint count_string (s : string) (l : list string) : nat :=
  match l with
  | [] => O
  | x :: r => ((if String.eqb s x then 1 else 0) + count_string s r)%nat
  end.

(** Column names from the header record: an empty name becomes
    [Unnamed: j], a repeated name gets the suffix [.k]. *)
Fixpoint mangle_names (seen names : list string) (j : nat) : list string :=
  match names with
  | [] => []
  | n :: r =>
      let n0 := match n with
                | EmptyString => ("Unnamed: " ++ show_nat (Z.of_nat j))%string
                | _ => n
                end in
      let k := count_string n0 seen in
      (if (k =? 0)%nat then n0
       else (n0 ++ "." ++ show_nat (Z.of_nat k))%string)
      :: mangle_names (n0 :: seen) r (S j)
  end.

(** A record longer than the table is wide is an error; the width is that
    of the header or of the first data record, whichever is longer. *)
Fixpoint check_widths (w : nat) (data : list (list string)) : result unit :=
  match data with
  | [] => Ok tt
  | r :: rest =>
      if (w <? List.length r)%nat then Raise (ParserError w (List.length r))
      else check_widths w rest
  end.

(** Field [j] of a record; a record that is too short is missing it. *)
Definition field_at (j : nat) (r : list string) : string := nth j r EmptyString.

(** [pd.read_csv] on the text of a file.  When the data records are wider
    than the header, the leading fields are the row index and not columns. *)
Definition read_csv (text : string) : result DataFrame :=
  match tokenize text with
  | Raise e => Raise e
  | Ok [] => Raise EmptyDataError
  | Ok (header :: data) =>
      let n := List.length header in
      let w := match data with
               | [] => n
               | r :: _ => Nat.max n (List.length r)
               end in
      match check_widths w data with
      | Raise e => Raise e
      | Ok _ =>
          Ok (map (fun jc =>
                     (snd jc,
                      infer_column (map (field_at (w - n + fst jc)) data)))
                  (combine (seq 0 n) (mangle_names [] header 0)))
      end
  end.

(** ** The interpreter state and its effects *)

Inductive plot_kind := BarPlot | LinePlot.

(** What the program writes to the console or shows on screen, in order. *)
Inductive event :=
| Printed (s : string)                  (* print(s) *)
| Prompted (s : string)                 (* the prompt of input(s) *)
| PrintedFrame (df : DataFrame)         (* print(df.to_string(index=False)) *)
| PrintedSeries (s : KeyedSeries)       (* print(series) *)
| Shown (k : plot_kind) (title xlabel ylabel : string) (s : KeyedSeries)
                                        (* a figure and plt.show() *).

(** A reference to a frame object in the store. *)
Definition ref := nat.

Record World := mkWorld {
  disk : option string;    (* the text of expenses.csv; None: no such file *)
  stdin : list string;     (* the lines still to be typed *)
  stdout : list event;     (* what has been written, oldest first *)
  today : date;            (* the clock's day *)
  heap : list DataFrame    (* the frame objects, by reference *)
}.

(** Computations that read and change the world and may raise. *)
Definition M (A : Type) : Type := World -> result A * World.

Definition ret {A} (a : A) : M A := fun w => (Ok a, w).

Definition bind {A B} (c : M A) (k : A -> M B) : M B :=
  fun w => match c w with
           | (Ok a, w') => k a w'
           | (Raise e, w') => (Raise e, w')
           end.

Notation "x <- c ;; k" := (bind c (fun x => k))
  (at level 61, c at next level, right associativity).
Notation "c ;;; k" := (bind c (fun _ => k))
  (at level 61, right associativity).

Definition lift {A} (r : result A) : M A := fun w => (r, w).

Definition emit (e : event) : M unit :=
  fun w => (Ok tt, mkWorld (disk w) (stdin w) (stdout w ++ [e]) (today w) (heap w)).

Definition print (s : string) : M unit := emit (Printed s).

(** [input(prompt)]: writes the prompt, reads one line; [EOFError] when the
    input has ended. *)
Definition input (prompt : string) : M string :=
  emit (Prompted prompt) ;;;
  fun w => match stdin w with
           | [] => (Raise EOFError, w)
           | l :: r => (Ok l, mkWorld (disk w) r (stdout w) (today w) (heap w))
           end.

(** [datetime.today()] *)
Definition datetime_today : M date := fun w => (Ok (today w), w).

Definition read_file : M (option string) := fun w => (Ok (disk w), w).

Definition write_file (text : string) : M unit :=
  fun w => (Ok tt, mkWorld (Some text) (stdin w) (stdout w) (today w) (heap w)).

(** A new frame object. *)
Definition alloc (df : DataFrame) : M ref :=
  fun w => (Ok (List.length (heap w)),
            mkWorld (disk w) (stdin w) (stdout w) (today w) (heap w ++ [df])).

(** The frame behind a reference. *)
Definition frame (w : World) (r : ref) : DataFrame := nth r (heap w) [].

Definition deref (r : ref) : M DataFrame := fun w => (Ok (frame w r), w).

Fixpoint list_set {A} (i : nat) (x : A) (l : list A) : list A :=
  match l, i with
  | [], _ => []
  | _ :: r, O => x :: r
  | y :: r, S j => y :: list_set j x r
  end.

(** The object behind [r] becomes [df], for every holder of [r]. *)
Definition assign (r : ref) (df : DataFrame) : M unit :=
  fun w => (Ok tt, mkWorld (disk w) (stdin w) (stdout w) (today w)
                           (list_set r df (heap w))).

(** ** The program *)

Local Open Scope string_scope.

Definition DATA_FILE : string := "expenses.csv".
Definition COLUMNS : list string := ["Date"; "Category"; "Description"; "Amount"].

(** Load existing expenses from CSV, or create an empty table.  Only
    [FileNotFoundError] is caught. *)
Definition load_expenses : M ref :=
  f <- read_file ;;
  match f with
  | Some text => df <- lift (read_csv text) ;; alloc df
  | None => alloc (empty_frame COLUMNS)
  end.

(** Save current expenses back to CSV. *)
Definition save_expenses (df : ref) : M unit :=
  d <- deref df ;; write_file (to_csv d).

(** The loop around [float(input("Amount: "))]: it ends with the first line
    that reads as a number, or with [EOFError] when the input ends.  A line
    in a spelling that is not modelled ends the run of the model. *)
Fixpoint amount_loop (lines : list string) (out : list event)
  : result Dec.t * list string * list event :=
  match lines with
  | [] => (Raise EOFError, [], (out ++ [Prompted "Amount: "])%list)
  | l :: r =>
      match py_float l with
      | Some a => (Ok a, r, (out ++ [Prompted "Amount: "])%list)
      | None =>
          if float_unmodelled l
          then (Raise Unmodelled, r, (out ++ [Prompted "Amount: "])%list)
          else
            amount_loop r
              (out ++ [Prompted "Amount: ";
                       Printed "Please enter a valid number for amount."])%list
      end
  end.

Definition read_amount : M Dec.t :=
  fun w => let '(res, ins, out) := amount_loop (stdin w) (stdout w) in
           (res, mkWorld (disk w) ins out (today w) (heap w)).

(** Collect expense details from user and append to DataFrame. *)
Definition add_expense (df : ref) : M ref :=
  print (nl ++ "--- Add New Expense ---") ;;;
  date_in <- input "Date (YYYY-MM-DD, leave blank for today): " ;;
  date_str <- (match strip date_in with
               | EmptyString => t <- datetime_today ;; ret (strftime_ymd t)
               | s => ret s
               end) ;;
  category_in <- input "Category (Food, Travel, Bills, etc.): " ;;
  description_in <- input "Short description: " ;;
  amount <- read_amount ;;
  let new_row := [("Date", VStr date_str);
                  ("Category", VStr (strip category_in));
                  ("Description", VStr (strip description_in));
                  ("Amount", VNum amount)] in
  d <- deref df ;;
  df' <- alloc (concat_row d new_row) ;;
  save_expenses df' ;;;
  print ("Expense added successfully!" ++ nl) ;;;
  ret df'.

(** Show the last n expenses. *)
Definition view_expenses (df : ref) (n : nat) : M unit :=
  d <- deref df ;;
  if df_empty d then print (nl ++ "No expenses recorded yet." ++ nl)
  else
    print (nl ++ "--- Last " ++ show_nat (Z.of_nat n) ++ " expenses ---") ;;;
    emit (PrintedFrame (tail n d)) ;;;
    print EmptyString.

(** Show total spent per month and overall statistics. *)
Definition monthly_summary (df : ref) : M unit :=
  d <- deref df ;;
  if df_empty d then print (nl ++ "No data available for summary." ++ nl)
  else
    (* df["Date"] = pd.to_datetime(df["Date"]) *)
    dates <- lift (get_col "Date" d) ;;
    stamps <- lift (to_datetime dates) ;;
    assign df (set_col "Date" stamps d) ;;;
    (* df["YearMonth"] = df["Date"].dt.to_period("M") *)
    d1 <- deref df ;;
    stamps1 <- lift (get_col "Date" d1) ;;
    assign df (set_col "YearMonth" (to_period_M stamps1) d1) ;;;
    (* monthly_totals = df.groupby("YearMonth")["Amount"].sum() *)
    d2 <- deref df ;;
    monthly_totals <- lift (groupby_amount "YearMonth" d2) ;;
    print (nl ++ "--- Monthly Spending ---") ;;;
    emit (PrintedSeries monthly_totals) ;;;
    (* amounts = df["Amount"].values *)
    amounts <- lift (get_col "Amount" d2) ;;
    print (nl ++ "--- Overall Stats ---") ;;;
    total <- lift (np_sum amounts) ;;
    print ("Total spent : " ++ format_stat total) ;;;
    mean <- lift (np_mean amounts) ;;
    print ("Average spend: " ++ format_stat mean) ;;;
    hi <- lift (np_max amounts) ;;
    print ("Max spend    : " ++ format_stat hi) ;;;
    lo <- lift (np_min amounts) ;;
    print ("Min spend    : " ++ format_stat lo ++ nl).

(** Visualize total expense per category using matplotlib. *)
Definition plot_by_category (df : ref) : M unit :=
  d <- deref df ;;
  if df_empty d then print (nl ++ "No data to plot." ++ nl)
  else
    totals <- lift (groupby_amount "Category" d) ;;
    let category_totals := sort_values_desc totals in
    emit (Shown BarPlot "Expenses by Category" "Category" "Amount"
                category_totals).

(** Visualize daily spending trend. *)
Definition plot_daily_trend (df : ref) : M unit :=
  d <- deref df ;;
  if df_empty d then print (nl ++ "No data to plot." ++ nl)
  else
    dates <- lift (get_col "Date" d) ;;
    stamps <- lift (to_datetime dates) ;;
    assign df (set_col "Date" stamps d) ;;;
    d1 <- deref df ;;
    daily_totals <- lift (groupby_amount "Date" d1) ;;
    emit (Shown LinePlot "Daily Expense Trend" "Date" "Amount" daily_totals).

Definition print_menu : M unit :=
  print "==== Expense Tracker ====" ;;;
  print "1. Add expense" ;;;
  print "2. View recent expenses" ;;;
  print "3. Show monthly summary" ;;;
  print "4. Plot expenses by category" ;;;
  print "5. Plot daily trend" ;;;
  print "0. Exit".

(** One choice of the menu: the frame the loop goes on with, or [None] to
    leave the loop. *)
Definition dispatch (choice : string) (df : ref) : M (option ref) :=
  if String.eqb choice "1" then df' <- add_expense df ;; ret (Some df')
  else if String.eqb choice "2" then view_expenses df 10 ;;; ret (Some df)
  else if String.eqb choice "3" then monthly_summary df ;;; ret (Some df)
  else if String.eqb choice "4" then plot_by_category df ;;; ret (Some df)
  else if String.eqb choice "5" then plot_daily_trend df ;;; ret (Some df)
  else if String.eqb choice "0" then print "Goodbye!" ;;; ret None
  else print ("Invalid choice, please try again." ++ nl) ;;; ret (Some df).

(** The menu loop.  Every turn reads a line, so [fuel] turns are enough for
    an input of fewer than [fuel] lines. *)
Fixpoint main_loop (fuel : nat) (df : ref) : M unit :=
  match fuel with
  | O => ret tt
  | S f =>
      print_menu ;;;
      choice <- input "Choose an option: " ;;
      next <- dispatch (strip choice) df ;;
      match next with
      | Some df' => main_loop f df'
      | None => ret tt
      end
  end.

Definition main : M unit :=
  df <- load_expenses ;;
  fun w => main_loop (S (List.length (stdin w))) df w.


(** ** Vocabulary of the statements *)

(** The world after the events [es] were written. *)
Definition say (w : World) (es : list event) : World :=
  mkWorld (disk w) (stdin w) (stdout w ++ es)%list (today w) (heap w).




(** The cell of column [c] in row [i]. *)
Definition cell (c : string) (i : nat) (df : DataFrame) : value :=
  match get_col c df with
  | Ok s => nth i s VNaN
  | Raise _ => VNaN
  end.

(** The table of the specification's scenario. *)
Definition scenario_table : DataFrame :=
  [("Date", [VStr "2024-01-05"; VStr "2024-01-20"; VStr "2024-02-01"]);
   ("Category", [VStr "Food"; VStr "Food"; VStr "Travel"]);
   ("Description", [VStr "Lunch"; VStr "Dinner"; VStr "Taxi"]);
   ("Amount", [VNum (Dec.Int 10); VNum (Dec.Int 15); VNum (Dec.Int 30)])].

(** A session that holds the frame [d] as object 0, with the lines [ins]
    still to be typed. *)
Definition session (d : DataFrame) (ins : list string) : World :=
  mkWorld None ins [] (mkDate 2024 3 1) [d].

(** The text of a file, line by line. *)
Definition lines (l : list string) : string :=
  concat_strings (map (fun x => x ++ nl) l).

(** A file whose third line has six fields under a header of four. *)
Definition ragged_file : string :=
  lines ["Date,Category,Description,Amount";
         "2024-01-05,Food,Lunch,10.0";
         "2024-01-06,Food,Dinner,12.0,extra,fields"].

(** A file that ends inside a quoted field. *)
Definition unterminated_file : string :=
  lines ["Date,Category,Description,Amount";
         String dquote "2024-01-05,Food,Lunch,10.0"].

(** A world with the file [text] on disk and nothing else. *)
Definition on_disk (text : string) (ins : list string) : World :=
  mkWorld (Some text) ins [] (mkDate 2024 3 1) [].

(** The scenario table after [to_datetime] on its dates. *)
Definition scenario_stamps : Series :=
  [VTimestamp (mkDate 2024 1 5); VTimestamp (mkDate 2024 1 20);
   VTimestamp (mkDate 2024 2 1)].


Fixpoint last_char (s : string) : option ascii :=
  match s with
  | EmptyString => None
  | String c EmptyString => Some c
  | String _ r => last_char r
  end.





(** A session in which the date line is left blank. *)
Definition blank_date_session : World :=
  session scenario_table ["   "; "Food"; "Coffee"; "4.50"].


(** ** Vocabulary for the grouped totals *)

(** A cell that is a number, or missing. *)
Definition is_amount (v : value) : bool :=
  match v with
  | VNum _ | VNaN => true
  | _ => false
  end.

Definition present (v : value) : bool :=
  match v with
  | VNaN => false
  | _ => true
  end.

(** The number a cell adds to a sum: a missing amount adds nothing. *)
Definition amount_of (v : value) : Dec.t :=
  match v with
  | VNum x => x
  | _ => Dec.zero
  end.

(** The amounts of the rows whose key is exactly [k], in row order. *)
Fixpoint group_rows (k : value) (keys amounts : Series) : list Dec.t :=
  match keys, amounts with
  | k' :: ks, a :: az =>
      if value_eqb k' k then amount_of a :: group_rows k ks az
      else group_rows k ks az
  | _, _ => []
  end.

(** The amounts of the rows that have a key. *)
Fixpoint keyed_rows (keys amounts : Series) : list Dec.t :=
  match keys, amounts with
  | k :: ks, a :: az =>
      if present k then amount_of a :: keyed_rows ks az
      else keyed_rows ks az
  | _, _ => []
  end.

(** The total recorded for key [k]. *)
Fixpoint lookup_total (k : value) (g : KeyedSeries) : option Dec.t :=
  match g with
  | [] => None
  | (k', t) :: r => if value_eqb k k' then Some t else lookup_total k r
  end.

(** Strictly before, in the order of the keys. *)
Definition key_lt (a b : value) : Prop := value_leb a b = true /\ a <> b.

(** The keys come in strictly ascending order. *)
Fixpoint ascending_keys (l : list value) : Prop :=
  match l with
  | [] => True
  | k :: r => Forall (key_lt k) r /\ ascending_keys r
  end.



(** What a group holds after more rows: the total it had, or none, together
    with the amounts of the new rows of its key. *)
Definition merged (t0 : option Dec.t) (rows : list Dec.t) : option Dec.t :=
  match t0, rows with
  | Some t, _ => Some (fold_left Dec.add rows t)
  | None, [] => None
  | None, _ => Some (Dec.sum rows)
  end.



(** The frame after the two column assignments of the monthly summary. *)
Definition with_year_month (stamps : Series) (d : DataFrame) : DataFrame :=
  set_col "YearMonth" (to_period_M stamps) (set_col "Date" stamps d).

(** The lines of statistics the monthly summary prints for the amounts [l]. *)
Definition stats_events (l : list Dec.t) : list event :=
  [Printed (nl ++ "--- Overall Stats ---");
   Printed ("Total spent : " ++ format_2f (Dec.toQ (Dec.sum l)));
   Printed ("Average spend: " ++
            format_2f (Dec.toQ (Dec.sum l) / inject_Z (Z.of_nat (List.length l)))%Q);
   Printed ("Max spend    : " ++ format_2f (Dec.toQ (fold1 Dec.max l)));
   Printed ("Min spend    : " ++ format_2f (Dec.toQ (fold1 Dec.min l)) ++ nl)].

(** ** Vocabulary for the file round trip *)











(** ** Vocabulary for the menu loop *)

(** A computation that takes lines from the input and never adds any. *)
Definition consumes {A} (c : M A) : Prop :=
  forall w, (List.length (stdin (snd (c w))) <= List.length (stdin w))%nat.

(** ** Vocabulary for the views, the failures and the session *)

(** Every column has as many cells as the frame has rows. *)
Definition rectangular (d : DataFrame) : Prop :=
  Forall (fun cs => List.length (snd cs) = nrows d) d.

(** What the view writes for a table that is not empty. *)
Definition view_events (n : nat) (shown : DataFrame) : list event :=
  [Printed (nl ++ "--- Last " ++ show_nat (Z.of_nat n) ++ " expenses ---");
   PrintedFrame shown;
   Printed EmptyString].


(** A computation that leaves the file and the pending input alone. *)
Definition quiet {A} (c : M A) : Prop :=
  forall w, disk (snd (c w)) = disk w /\ stdin (snd (c w)) = stdin w.

(** A computation that takes lines from the front of the input: what is
    pending afterwards is the end of what was pending before. *)
Definition reads {A} (c : M A) : Prop :=
  forall w, exists taken, stdin w = (taken ++ stdin (snd (c w)))%list.



(** The statistics the monthly summary prints when an amount is missing. *)
Definition nan_stats_events : list event :=
  [Printed (nl ++ "--- Overall Stats ---");
   Printed "Total spent : nan";
   Printed "Average spend: nan";
   Printed "Max spend    : nan";
   Printed ("Min spend    : nan" ++ nl)].

(** The statistics printed for the amounts read off the Amount column:
    the numbers, or none when one of the cells is missing. *)
Definition stats_lines (o : option (list Dec.t)) : list event :=
  match o with
  | Some l => stats_events l
  | None => nan_stats_events
  end.

(** A table whose columns are not the program's: no Date, no Category. *)
Definition foreign_table : DataFrame :=
  [("Day", [VStr "2024-01-05"; VStr "2024-01-20"]);
   ("Amount", [VNum (Dec.Int 10); VNum (Dec.Int 15)])].




(** ** Vocabulary for a session of adds *)






(* ===================================================================== *)
(** * Part II: properties *)
(* ===================================================================== *)

Local Open Scope Z_scope.

(** ** Decimal arithmetic *)

Module DecFacts.
Import Dec.

Lemma pow10_pos n : 0 < pow10 n.
Proof. unfold pow10. apply Z.pow_pos_nonneg; lia. Qed.

Lemma pow10_add a b : pow10 (a + b) = pow10 a * pow10 b.
Proof. unfold pow10. rewrite Nat2Z.inj_add, Z.pow_add_r; lia. Qed.

Lemma pow10_S n : pow10 (S n) = 10 * pow10 n.
Proof. unfold pow10. rewrite Nat2Z.inj_succ, Z.pow_succ_r; lia. Qed.

Lemma nz_val_range r : 1 <= nz_val r <= 9.
Proof. destruct r; simpl; lia. Qed.

Lemma nz_of_val r : nz_of (nz_val r) = r.
Proof. destruct r; reflexivity. Qed.

Lemma nz_val_of z : 1 <= z <= 9 -> nz_val (nz_of z) = z.
Proof.
  intros H.
  assert (z = 1 \/ z = 2 \/ z = 3 \/ z = 4 \/ z = 5 \/ z = 6 \/ z = 7 \/
          z = 8 \/ z = 9) as C by lia.
  repeat (destruct C as [C | C]; [subst; reflexivity | ]); subst; reflexivity.
Qed.

Lemma of_pair_mul10 m s : of_pair (10 * m) (S s) = of_pair m s.
Proof.
  cbn [of_pair]. rewrite (Z.mul_comm 10 m), Z_mod_mult, Z.div_mul by lia.
  reflexivity.
Qed.

Lemma of_pair_scale k m s : of_pair (m * pow10 k) (s + k) = of_pair m s.
Proof.
  induction k as [| k IH].
  - unfold pow10. simpl. rewrite Z.mul_1_r, Nat.add_0_r. reflexivity.
  - rewrite pow10_S, Nat.add_succ_r.
    replace (m * (10 * pow10 k)) with (10 * (m * pow10 k)) by ring.
    rewrite of_pair_mul10. exact IH.
Qed.

Lemma of_pair_same m1 s1 m2 s2 :
  same (m1, s1) (m2, s2) -> of_pair m1 s1 = of_pair m2 s2.
Proof.
  unfold same; simpl; intros H.
  rewrite <- (of_pair_scale s2 m1 s1), <- (of_pair_scale s1 m2 s2).
  rewrite H, (Nat.add_comm s1 s2). reflexivity.
Qed.

Lemma of_to_pair d : of_pair (fst (to_pair d)) (snd (to_pair d)) = d.
Proof.
  destruct d as [n | q r k]; cbn [to_pair fst snd of_pair]; [reflexivity | ].
  pose proof (nz_val_range r) as Hr.
  assert ((10 * q + nz_val r) mod 10 = nz_val r) as Hm.
  { rewrite Z.add_comm, Z.mul_comm, Z_mod_plus_full. apply Z.mod_small. lia. }
  assert ((10 * q + nz_val r) / 10 = q) as Hd.
  { rewrite Z.add_comm, Z.mul_comm, Z_div_plus_full by lia.
    rewrite Z.div_small; lia. }
  rewrite Hm, Hd, nz_of_val.
  destruct (Z.eqb_spec (nz_val r) 0); [lia | reflexivity].
Qed.

Lemma to_of_pair m s : same (to_pair (of_pair m s)) (m, s).
Proof.
  revert m. induction s as [| k IH]; intros m.
  - unfold same; cbn [of_pair to_pair fst snd]. reflexivity.
  - cbn [of_pair]. destruct (Z.eqb_spec (m mod 10) 0) as [E | E].
    + specialize (IH (m / 10)). unfold same in *; cbn [fst snd] in *.
      rewrite pow10_S.
      pose proof (Z_div_mod_eq_full m 10) as D. rewrite E in D.
      set (q := m / 10) in *.
      replace (fst (to_pair (of_pair q k)) * (10 * pow10 k))
        with (10 * (fst (to_pair (of_pair q k)) * pow10 k)) by ring.
      rewrite IH, D. ring.
    + unfold same; cbn [to_pair fst snd].
      pose proof (Z.mod_pos_bound m 10 ltac:(lia)) as B.
      rewrite nz_val_of by lia.
      rewrite <- Z_div_mod_eq_full. reflexivity.
Qed.

Lemma add_padd a b :
  add a b = of_pair (fst (padd (to_pair a) (to_pair b)))
                    (snd (padd (to_pair a) (to_pair b))).
Proof.
  unfold add, padd. destruct (to_pair a), (to_pair b). reflexivity.
Qed.

Lemma padd_same_l p p' q : same p p' -> same (padd p q) (padd p' q).
Proof.
  destruct p as [m s], p' as [m' s'], q as [n t].
  unfold same, padd; simpl. intros H. rewrite !pow10_add.
  replace ((m * pow10 t + n * pow10 s) * (pow10 s' * pow10 t))
    with (m * pow10 s' * (pow10 t * pow10 t) + n * pow10 s * pow10 s' * pow10 t)
    by ring.
  rewrite H. ring.
Qed.

Lemma padd_comm p q : padd p q = padd q p.
Proof.
  unfold padd. f_equal; [ring | lia].
Qed.

Lemma padd_same_r p q q' : same q q' -> same (padd p q) (padd p q').
Proof.
  intros H. rewrite (padd_comm p q), (padd_comm p q').
  now apply padd_same_l.
Qed.

Lemma padd_assoc p q r : padd (padd p q) r = padd p (padd q r).
Proof.
  destruct p as [m s], q as [n t], r as [o u].
  unfold padd; simpl. rewrite !pow10_add. f_equal; [ring | lia].
Qed.

Lemma of_pair_same' p q :
  same p q -> of_pair (fst p) (snd p) = of_pair (fst q) (snd q).
Proof. destruct p, q. apply of_pair_same. Qed.

Lemma add_comm a b : add a b = add b a.
Proof. rewrite !add_padd, padd_comm. reflexivity. Qed.

Lemma add_assoc a b c : add (add a b) c = add a (add b c).
Proof.
  rewrite (add_padd (add a b) c), (add_padd a (add b c)).
  rewrite (add_padd a b), (add_padd b c).
  set (A := to_pair a). set (B := to_pair b). set (C := to_pair c).
  transitivity (of_pair (fst (padd (padd A B) C)) (snd (padd (padd A B) C))).
  - apply of_pair_same', padd_same_l.
    destruct (padd A B) as [m s]. apply to_of_pair.
  - rewrite padd_assoc. symmetry.
    apply of_pair_same', padd_same_r.
    destruct (padd B C) as [m s]. apply to_of_pair.
Qed.

Lemma add_zero_l a : add zero a = a.
Proof.
  rewrite add_padd. unfold padd, zero; simpl.
  rewrite <- (of_to_pair a) at 3.
  apply of_pair_same. unfold same; simpl.
  change (pow10 0) with 1. ring.
Qed.

Lemma add_zero_r a : add a zero = a.
Proof. rewrite add_comm. apply add_zero_l. Qed.

Lemma leb_total a b : leb a b = false -> leb b a = true.
Proof.
  unfold leb. destruct (to_pair a), (to_pair b). lia.
Qed.

Lemma leb_refl a : leb a a = true.
Proof. unfold leb. destruct (to_pair a). lia. Qed.


Lemma fold_add_shift l a b :
  fold_left add l (add a b) = add a (fold_left add l b).
Proof.
  revert b. induction l as [| x l IH]; intros b; simpl; [reflexivity | ].
  rewrite add_assoc. apply IH.
Qed.

Lemma sum_cons x l : sum (x :: l) = add x (sum l).
Proof.
  unfold sum; simpl. rewrite add_zero_l.
  rewrite <- (add_zero_r x) at 1. apply fold_add_shift.
Qed.

Lemma sum_app l1 l2 : sum (l1 ++ l2) = add (sum l1) (sum l2).
Proof.
  induction l1 as [| x l IH]; simpl.
  - unfold sum at 2; simpl. now rewrite add_zero_l.
  - rewrite !sum_cons, IH, add_assoc. reflexivity.
Qed.


End DecFacts.

Local Open Scope string_scope.
Local Open Scope list_scope.

(** ** Running the program: the store and the console *)




(** ** Empty tables *)

(** C9.  On an empty table the view operation writes the single line that no
    expenses are recorded, and the monthly summary writes the single line
    that no data is available; nothing else is written, so no statistic (zero
    or NaN) is computed or reported, and the file and the table stay as they
    were. *)
Theorem C9_empty_table_reports_no_data (w : World) (df : ref) (n : nat) :
  df_empty (frame w df) = true ->
  view_expenses df n w =
    (Ok tt, say w [Printed (nl ++ "No expenses recorded yet." ++ nl)]) /\
  monthly_summary df w =
    (Ok tt, say w [Printed (nl ++ "No data available for summary." ++ nl)]).
Proof.
  intros He.
  unfold view_expenses, monthly_summary, bind, deref.
  rewrite He. split; reflexivity.
Qed.

(** The empty table a first start creates, viewed and summarised. *)
Lemma C9_empty_table_witness :
  df_empty (frame (session (empty_frame COLUMNS) []) 0%nat) = true /\
  view_expenses 0%nat 10%nat (session (empty_frame COLUMNS) []) =
    (Ok tt, say (session (empty_frame COLUMNS) [])
                [Printed (nl ++ "No expenses recorded yet." ++ nl)]) /\
  monthly_summary 0%nat (session (empty_frame COLUMNS) []) =
    (Ok tt, say (session (empty_frame COLUMNS) [])
                [Printed (nl ++ "No data available for summary." ++ nl)]).
Proof.
  split; [reflexivity | ].
  apply (C9_empty_table_reports_no_data (session (empty_frame COLUMNS) []) 0%nat 10%nat).
  reflexivity.
Defined.

(** ** Loading *)

(** C7.  Without a file, loading yields a new empty table with the four
    columns Date, Category, Description, Amount; with a file that
    [read_csv] rejects, the parser's error is what loading raises (nothing
    catches it) and the world is left as it was. *)
Theorem C7_load_absent_or_malformed (w : World) :
  (disk w = None ->
   load_expenses w =
     (Ok (List.length (heap w)),
      mkWorld (disk w) (stdin w) (stdout w) (today w)
              (heap w ++ [empty_frame COLUMNS])) /\
   columns (empty_frame COLUMNS) = ["Date"; "Category"; "Description"; "Amount"] /\
   nrows (empty_frame COLUMNS) = 0%nat) /\
  (forall text e,
     disk w = Some text -> read_csv text = Raise e ->
     load_expenses w = (Raise e, w)).
Proof.
  split.
  - intros Hd. destruct w as [dk sin sout td hp]; simpl in Hd; subst dk.
    repeat split.
  - intros text e Hd He.
    unfold load_expenses, bind, read_file, lift. rewrite Hd, He. reflexivity.
Qed.

(** Loading with no file, with a record that is too wide, with an open quote
    and with an empty file. *)
Lemma C7_load_witness :
  load_expenses (session [] []) =
    (Ok 1%nat, mkWorld None [] [] (mkDate 2024 3 1) [[]; empty_frame COLUMNS]) /\
  load_expenses (on_disk ragged_file []) =
    (Raise (ParserError 4 6), on_disk ragged_file []) /\
  load_expenses (on_disk unterminated_file []) =
    (Raise ParserEOFInString, on_disk unterminated_file []) /\
  load_expenses (on_disk EmptyString []) =
    (Raise EmptyDataError, on_disk EmptyString []).
Proof.
  split; [ | split; [ | split]].
  - apply (proj1 (C7_load_absent_or_malformed (session [] []))). reflexivity.
  - apply (proj2 (C7_load_absent_or_malformed (on_disk ragged_file []))
             ragged_file (ParserError 4 6)); reflexivity.
  - apply (proj2 (C7_load_absent_or_malformed (on_disk unterminated_file []))
             unterminated_file ParserEOFInString); reflexivity.
  - apply (proj2 (C7_load_absent_or_malformed (on_disk EmptyString []))
             EmptyString EmptyDataError); reflexivity.
Defined.

(** ** The scenario of the specification *)

(** C8.  On the table with the records (2024-01-05, Food, Lunch, 10),
    (2024-01-20, Food, Dinner, 15), (2024-02-01, Travel, Taxi, 30) the monthly
    summary prints the totals 25 for 2024-01 and 30 for 2024-02, in that
    order, and the statistics total 55.00, average 18.33, max 30.00, min
    10.00; the category chart shows Travel 30 and then Food 25. *)
Theorem C8_scenario_summary :
  fst (monthly_summary 0%nat (session scenario_table [])) = Ok tt /\
  stdout (snd (monthly_summary 0%nat (session scenario_table []))) =
    [Printed (nl ++ "--- Monthly Spending ---");
     PrintedSeries [(VPeriod 2024 1, Dec.Int 25); (VPeriod 2024 2, Dec.Int 30)];
     Printed (nl ++ "--- Overall Stats ---");
     Printed "Total spent : 55.00";
     Printed "Average spend: 18.33";
     Printed "Max spend    : 30.00";
     Printed ("Min spend    : 10.00" ++ nl)] /\
  format_2f (Dec.toQ (Dec.Int 25)) = "25.00" /\
  format_2f (Dec.toQ (Dec.Int 30)) = "30.00" /\
  fst (plot_by_category 0%nat (session scenario_table [])) = Ok tt /\
  stdout (snd (plot_by_category 0%nat (session scenario_table []))) =
    [Shown BarPlot "Expenses by Category" "Category" "Amount"
           [(VStr "Travel", Dec.Int 30); (VStr "Food", Dec.Int 25)]].
Proof.
  repeat split; vm_compute; reflexivity.
Qed.

(** ** The summaries and the table they are given *)

(** C1 (the code departs from the claim).  The monthly summary assigns to
    the columns of the frame it is given: afterwards the caller's table has
    timestamps in place of the Date texts and a fifth column YearMonth.  The
    daily trend replaces the Date column in the same way.  The category
    chart leaves the table as it was.  Once the summary has run, the next
    added expense is saved under a header of five columns. *)
Theorem C1_summaries_change_the_table :
  frame (snd (monthly_summary 0%nat (session scenario_table []))) 0%nat =
    [("Date", scenario_stamps);
     ("Category", [VStr "Food"; VStr "Food"; VStr "Travel"]);
     ("Description", [VStr "Lunch"; VStr "Dinner"; VStr "Taxi"]);
     ("Amount", [VNum (Dec.Int 10); VNum (Dec.Int 15); VNum (Dec.Int 30)]);
     ("YearMonth", [VPeriod 2024 1; VPeriod 2024 1; VPeriod 2024 2])] /\
  frame (snd (monthly_summary 0%nat (session scenario_table []))) 0%nat
    <> scenario_table /\
  frame (snd (plot_daily_trend 0%nat (session scenario_table []))) 0%nat =
    set_col "Date" scenario_stamps scenario_table /\
  frame (snd (plot_daily_trend 0%nat (session scenario_table []))) 0%nat
    <> scenario_table /\
  frame (snd (plot_by_category 0%nat (session scenario_table []))) 0%nat =
    scenario_table /\
  (exists records : string,
     disk (snd (main (on_disk (to_csv scenario_table)
                              ["3"; "1"; "2024-02-03"; "Food"; "Snack"; "5"; "0"]))) =
     Some ("Date,Category,Description,Amount,YearMonth" ++ nl ++ records)%string).
Proof.
  repeat split; try (vm_compute; reflexivity);
    try (vm_compute; discriminate).
  eexists. vm_compute. reflexivity.
Qed.

(** ** Frames: columns and appended rows *)





Lemma get_col_columns c d s :
  get_col c d = Ok s -> mem_string c (columns d) = true.
Proof.
  induction d as [| [c' s'] d IH]; simpl; [discriminate | ].
  destruct (String.eqb c c'); simpl; auto.
Qed.







(** ** Adding an expense *)


(** ** Text *)




(** ** Digits *)








(** ** Dates as text *)




(** ** What [strip] removes *)






(** The day the clock shows is written in full when the date is left blank. *)
Lemma blank_date_example :
  exists (r : ref) (w' : World),
    add_expense 0%nat blank_date_session = (Ok r, w') /\
    get_col "Date" (frame w' r) =
      Ok [VStr "2024-01-05"; VStr "2024-01-20"; VStr "2024-02-01";
          VStr "2024-03-01"].
Proof.
  eexists _, _. split; vm_compute; reflexivity.
Qed.

(** ** Who writes the file *)




(** ** The order on group keys is a total order *)

Module KeyOrder.

Lemma nat_of_ascii_inj x y : nat_of_ascii x = nat_of_ascii y -> x = y.
Proof.
  intros H. rewrite <- (ascii_nat_embedding x), <- (ascii_nat_embedding y).
  now rewrite H.
Qed.

Lemma string_leb_refl a : string_leb a a = true.
Proof.
  induction a as [| x a IH]; simpl; [reflexivity | ].
  rewrite Nat.eqb_refl, IH. apply orb_true_r.
Qed.

Lemma string_leb_total a b : string_leb a b = false -> string_leb b a = true.
Proof.
  revert b. induction a as [| x a IH]; intros [| y b]; simpl; try congruence.
  intros H. apply orb_false_iff in H as [H1 H2].
  apply Nat.ltb_ge in H1.
  destruct (Nat.eqb_spec (nat_of_ascii x) (nat_of_ascii y)) as [E | E].
  - rewrite E, Nat.eqb_refl. simpl in H2. rewrite (IH b H2). apply orb_true_r.
  - replace (nat_of_ascii y <? nat_of_ascii x)%nat with true; [reflexivity | ].
    symmetry. apply Nat.ltb_lt. lia.
Qed.

Lemma string_leb_antisym a b :
  string_leb a b = true -> string_leb b a = true -> a = b.
Proof.
  revert b. induction a as [| x a IH]; intros [| y b]; simpl; try congruence.
  intros H1 H2.
  apply orb_true_iff in H1 as [H1 | H1]; apply orb_true_iff in H2 as [H2 | H2];
    try apply andb_true_iff in H1 as [E1 L1];
    try apply andb_true_iff in H2 as [E2 L2];
    try apply Nat.ltb_lt in H1; try apply Nat.ltb_lt in H2;
    try apply Nat.eqb_eq in E1; try apply Nat.eqb_eq in E2; try lia.
  f_equal; [now apply nat_of_ascii_inj | now apply IH].
Qed.

Lemma string_leb_trans a b c :
  string_leb a b = true -> string_leb b c = true -> string_leb a c = true.
Proof.
  revert b c. induction a as [| x a IH]; intros [| y b] [| z c]; simpl;
    try congruence.
  intros H1 H2.
  apply orb_true_iff in H1 as [H1 | H1]; apply orb_true_iff in H2 as [H2 | H2];
    try apply andb_true_iff in H1 as [E1 L1];
    try apply andb_true_iff in H2 as [E2 L2];
    try apply Nat.ltb_lt in H1; try apply Nat.ltb_lt in H2;
    try apply Nat.eqb_eq in E1; try apply Nat.eqb_eq in E2.
  - replace (nat_of_ascii x <? nat_of_ascii z)%nat with true; [reflexivity | ].
    symmetry; apply Nat.ltb_lt; lia.
  - replace (nat_of_ascii x <? nat_of_ascii z)%nat with true; [reflexivity | ].
    symmetry; apply Nat.ltb_lt; lia.
  - replace (nat_of_ascii x <? nat_of_ascii z)%nat with true; [reflexivity | ].
    symmetry; apply Nat.ltb_lt; lia.
  - rewrite E1, E2, Nat.eqb_refl, (IH b c L1 L2). apply orb_true_r.
Qed.

Lemma dec_leb_antisym a b : Dec.leb a b = true -> Dec.leb b a = true -> a = b.
Proof.
  unfold Dec.leb. intros H1 H2.
  rewrite <- (DecFacts.of_to_pair a), <- (DecFacts.of_to_pair b).
  destruct (Dec.to_pair a) as [m1 s1], (Dec.to_pair b) as [m2 s2].
  apply DecFacts.of_pair_same. unfold Dec.same; simpl. lia.
Qed.

Lemma dec_leb_trans a b c :
  Dec.leb a b = true -> Dec.leb b c = true -> Dec.leb a c = true.
Proof.
  unfold Dec.leb.
  destruct (Dec.to_pair a) as [m1 s1], (Dec.to_pair b) as [m2 s2],
           (Dec.to_pair c) as [m3 s3].
  intros H1 H2. apply Z.leb_le in H1, H2. apply Z.leb_le.
  pose proof (DecFacts.pow10_pos s1). pose proof (DecFacts.pow10_pos s2).
  pose proof (DecFacts.pow10_pos s3).
  apply (Z.mul_le_mono_pos_r _ _ (Dec.pow10 s2)); [lia | ].
  transitivity (m2 * Dec.pow10 s1 * Dec.pow10 s3).
  - replace (m1 * Dec.pow10 s3 * Dec.pow10 s2)
      with (m1 * Dec.pow10 s2 * Dec.pow10 s3) by ring.
    apply Z.mul_le_mono_pos_r; lia.
  - replace (m2 * Dec.pow10 s1 * Dec.pow10 s3)
      with (m2 * Dec.pow10 s3 * Dec.pow10 s1) by ring.
    replace (m3 * Dec.pow10 s1 * Dec.pow10 s2)
      with (m3 * Dec.pow10 s2 * Dec.pow10 s1) by ring.
    apply Z.mul_le_mono_pos_r; lia.
Qed.

Lemma date_leb_total a b : date_leb a b = false -> date_leb b a = true.
Proof. destruct a, b; unfold date_leb; simpl. lia. Qed.

Lemma date_leb_antisym a b : date_leb a b = true -> date_leb b a = true -> a = b.
Proof.
  destruct a as [y1 m1 d1], b as [y2 m2 d2]; unfold date_leb; simpl.
  intros H1 H2.
  assert (y1 = y2 /\ m1 = m2 /\ d1 = d2) as (-> & -> & ->) by lia.
  reflexivity.
Qed.

Lemma date_leb_trans a b c :
  date_leb a b = true -> date_leb b c = true -> date_leb a c = true.
Proof. destruct a, b, c; unfold date_leb; simpl. lia. Qed.

Lemma value_leb_total a b : value_leb a b = false -> value_leb b a = true.
Proof.
  destruct a as [s | x | p | d | y m | ], b as [s' | x' | p' | d' | y' m' | ];
    cbn [value_leb value_rank]; try lia.
  - apply string_leb_total.
  - apply DecFacts.leb_total.
  - destruct p, p'; simpl; intros; congruence.
  - apply date_leb_total.
Qed.

Lemma value_leb_antisym a b :
  value_leb a b = true -> value_leb b a = true -> a = b.
Proof.
  destruct a as [s | x | p | d | y m | ], b as [s' | x' | p' | d' | y' m' | ];
    cbn [value_leb value_rank]; try lia; try reflexivity.
  - intros H1 H2. f_equal. now apply string_leb_antisym.
  - intros H1 H2. f_equal. now apply dec_leb_antisym.
  - destruct p, p'; simpl; intros; congruence.
  - intros H1 H2. f_equal. now apply date_leb_antisym.
  - intros H1 H2. assert (y = y' /\ m = m') as [-> ->] by lia. reflexivity.
Qed.

Lemma value_leb_trans a b c :
  value_leb a b = true -> value_leb b c = true -> value_leb a c = true.
Proof.
  destruct a as [s | x | p | d | y m | ], b as [s' | x' | p' | d' | y' m' | ],
           c as [s'' | x'' | p'' | d'' | y'' m'' | ];
    cbn [value_leb value_rank]; try lia.
  - apply string_leb_trans.
  - apply dec_leb_trans.
  - destruct p, p', p''; simpl; intros; congruence.
  - apply date_leb_trans.
Qed.

Lemma value_leb_refl a : value_leb a a = true.
Proof.
  destruct (value_leb a a) eqn:E; [reflexivity | ].
  pose proof (value_leb_total _ _ E). congruence.
Qed.

Lemma value_eqb_eq a b : value_eqb a b = true <-> a = b.
Proof.
  unfold value_eqb. split.
  - intros H. apply andb_true_iff in H as [H1 H2]. now apply value_leb_antisym.
  - intros ->. now rewrite value_leb_refl.
Qed.

End KeyOrder.

(** ** Grouping *)

Module Grouping.
Import KeyOrder.

Lemma value_eqb_refl k : value_eqb k k = true.
Proof. now apply value_eqb_eq. Qed.

Lemma value_eqb_sym a b : value_eqb a b = value_eqb b a.
Proof. unfold value_eqb. apply andb_comm. Qed.

Lemma value_eqb_neq a b : a <> b -> value_eqb a b = false.
Proof.
  intros H. destruct (value_eqb a b) eqn:E; [ | reflexivity].
  apply value_eqb_eq in E. contradiction.
Qed.

Lemma key_lt_trans a b c : key_lt a b -> key_lt b c -> key_lt a c.
Proof.
  intros [H1 N1] [H2 N2]. split.
  - now apply (value_leb_trans a b c).
  - intros ->. apply N1. now apply value_leb_antisym.
Qed.

Lemma keys_group_add k a g x :
  In x (map fst (group_add k a g)) <-> x = k \/ In x (map fst g).
Proof.
  induction g as [| [k' t] g IH]; simpl.
  - intuition congruence.
  - destruct (value_eqb k k') eqn:E.
    + apply value_eqb_eq in E. subst k'. simpl. intuition congruence.
    + destruct (value_leb k k'); simpl; [intuition congruence | ].
      rewrite IH. intuition congruence.
Qed.

Lemma ascending_group_add k a g :
  ascending_keys (map fst g) -> ascending_keys (map fst (group_add k a g)).
Proof.
  induction g as [| [k' t] g IH]; simpl.
  - intros _. split; [constructor | exact I].
  - intros [Hall Hasc].
    destruct (value_eqb k k') eqn:E; [simpl; auto | ].
    destruct (value_leb k k') eqn:L; simpl.
    + assert (key_lt k k') as Hlt.
      { split; [exact L | ]. intros ->. now rewrite value_eqb_refl in E. }
      split; [ | auto]. constructor; [exact Hlt | ].
      eapply Forall_impl; [ | exact Hall]. intros y Hy.
      now apply (key_lt_trans k k' y).
    + split; [ | auto].
      apply Forall_forall. intros y Hy. apply keys_group_add in Hy.
      destruct Hy as [-> | Hy].
      * split; [now apply value_leb_total | ].
        intros ->. now rewrite value_eqb_refl in E.
      * rewrite Forall_forall in Hall. auto.
Qed.

Lemma lookup_not_key k g :
  ~ In k (map fst g) -> lookup_total k g = None.
Proof.
  induction g as [| [k' t] g IH]; simpl; [reflexivity | ].
  intros H. rewrite value_eqb_neq by intuition congruence. apply IH. tauto.
Qed.

Lemma lt_not_in k l : Forall (key_lt k) l -> ~ In k l.
Proof.
  intros H Hin. rewrite Forall_forall in H. destruct (H k Hin) as [_ N].
  now apply N.
Qed.

Lemma lookup_group_add_same k a g :
  ascending_keys (map fst g) ->
  lookup_total k (group_add k a g) =
  Some (match lookup_total k g with
        | Some t => Dec.add t a
        | None => a
        end).
Proof.
  induction g as [| [k' t] g IH]; simpl.
  - now rewrite value_eqb_refl.
  - intros [Hall Hasc]. destruct (value_eqb k k') eqn:E.
    + simpl. now rewrite E.
    + destruct (value_leb k k') eqn:L; simpl.
      * rewrite value_eqb_refl. rewrite lookup_not_key; [reflexivity | ].
        apply lt_not_in. eapply Forall_impl; [ | exact Hall].
        intros y Hy. apply (key_lt_trans k k' y); [ | exact Hy].
        split; [exact L | ]. intros ->. now rewrite value_eqb_refl in E.
      * rewrite E. auto.
Qed.

Lemma lookup_group_add_other k k0 a g :
  k0 <> k -> lookup_total k0 (group_add k a g) = lookup_total k0 g.
Proof.
  intros Hne. induction g as [| [k' t] g IH]; simpl.
  - now rewrite value_eqb_neq.
  - destruct (value_eqb k k') eqn:E.
    + apply value_eqb_eq in E. subst k'. simpl.
      now rewrite (value_eqb_neq k0 k).
    + destruct (value_leb k k'); simpl.
      * now rewrite (value_eqb_neq k0 k).
      * now rewrite IH.
Qed.

Lemma sum_map_snd_cons (k : value) t (g : KeyedSeries) :
  Dec.sum (map snd ((k, t) :: g)) = Dec.add t (Dec.sum (map snd g)).
Proof. simpl. apply DecFacts.sum_cons. Qed.

(** Adding an amount to a group adds it to the sum of all totals. *)
Lemma sum_group_add k a g :
  Dec.sum (map snd (group_add k a g)) = Dec.add (Dec.sum (map snd g)) a.
Proof.
  induction g as [| [k' t] g IH].
  - simpl. now rewrite DecFacts.sum_cons, DecFacts.add_comm.
  - cbn [group_add]. destruct (value_eqb k k').
    + rewrite !sum_map_snd_cons.
      rewrite !DecFacts.add_assoc. f_equal. apply DecFacts.add_comm.
    + destruct (value_leb k k').
      * rewrite sum_map_snd_cons. apply DecFacts.add_comm.
      * rewrite !sum_map_snd_cons, IH. now rewrite DecFacts.add_assoc.
Qed.

Lemma merged_step t0 x rows :
  merged (Some (match t0 with Some t => Dec.add t x | None => x end)) rows =
  merged t0 (x :: rows).
Proof.
  destruct t0 as [t | ]; simpl; [reflexivity | ].
  unfold Dec.sum; simpl. now rewrite DecFacts.add_zero_l.
Qed.

(** The groups after folding the rows in: every key keeps its place in the
    order, every group holds what it held and the amounts of the rows of its
    key, rows without a key change nothing, and the sum of all totals grows
    by the amounts of the rows that have a key. *)
Lemma groupby_sum_from_spec keys :
  forall amounts g,
    Forall (fun a => is_amount a = true) amounts ->
    ascending_keys (map fst g) ->
    exists g',
      groupby_sum_from keys amounts g = Ok g' /\
      ascending_keys (map fst g') /\
      (forall k, present k = true ->
         lookup_total k g' = merged (lookup_total k g) (group_rows k keys amounts)) /\
      (~ In VNaN (map fst g) -> ~ In VNaN (map fst g')) /\
      Dec.sum (map snd g') =
        Dec.add (Dec.sum (map snd g)) (Dec.sum (keyed_rows keys amounts)).
Proof.
  induction keys as [| k keys IH]; intros amounts g Ham Hasc.
  - exists g. simpl. repeat split; auto.
    + intros k _. destruct (lookup_total k g); reflexivity.
    + unfold Dec.sum at 3; simpl. now rewrite DecFacts.add_zero_r.
  - destruct amounts as [| a amounts].
    + exists g. simpl. repeat split; auto.
      * intros k0 _. destruct (lookup_total k0 g); reflexivity.
      * unfold Dec.sum at 3; simpl. now rewrite DecFacts.add_zero_r.
    + inversion Ham as [| ? ? Ha Ham']; subst.
      destruct (present k) eqn:Hk.
      * assert (groupby_sum_from (k :: keys) (a :: amounts) g =
                groupby_sum_from keys amounts (group_add k (amount_of a) g)) as Hstep.
        { destruct k, a; simpl in *; try discriminate; reflexivity. }
        destruct (IH amounts (group_add k (amount_of a) g) Ham'
                    (ascending_group_add k (amount_of a) g Hasc))
          as (g' & Hrun & Hasc' & Hlook & Hnan & Hsum).
        exists g'. rewrite Hstep. split; [exact Hrun | split; [exact Hasc' | ]].
        split; [ | split].
        -- intros k0 Hk0. rewrite (Hlook k0 Hk0). cbn [group_rows].
           destruct (value_eqb k k0) eqn:E.
           ++ apply value_eqb_eq in E. subst k0.
              rewrite lookup_group_add_same by exact Hasc.
              apply merged_step.
           ++ rewrite lookup_group_add_other; [reflexivity | ].
              intros ->. now rewrite value_eqb_refl in E.
        -- intros Hn. apply Hnan. intros Hin. apply keys_group_add in Hin.
           destruct Hin as [E | Hin]; [ | contradiction].
           rewrite <- E in Hk. discriminate.
        -- rewrite Hsum, sum_group_add. cbn [keyed_rows]. rewrite Hk.
           rewrite DecFacts.sum_cons. now rewrite DecFacts.add_assoc.
      * assert (k = VNaN) as -> by (destruct k; simpl in Hk; congruence).
        destruct (IH amounts g Ham' Hasc)
          as (g' & Hrun & Hasc' & Hlook & Hnan & Hsum).
        exists g'. cbn [groupby_sum_from]. split; [exact Hrun | ].
        split; [exact Hasc' | split; [ | split; [exact Hnan | exact Hsum]]].
        intros k0 Hk0. rewrite (Hlook k0 Hk0). cbn [group_rows].
        rewrite value_eqb_neq; [reflexivity | ].
        intros <-. discriminate.
Qed.

Lemma ascending_NoDup l : ascending_keys l -> NoDup l.
Proof.
  induction l as [| k l IH]; simpl; [constructor | ].
  intros [Hall Hasc]. constructor; [now apply lt_not_in | auto].
Qed.

(** In a series with ascending keys, the entries are what [lookup_total]
    finds. *)
Lemma In_lookup k t g :
  ascending_keys (map fst g) -> (In (k, t) g <-> lookup_total k g = Some t).
Proof.
  induction g as [| [k' t'] g IH]; simpl.
  - intros _. split; [tauto | discriminate].
  - intros [Hall Hasc]. destruct (value_eqb k k') eqn:E.
    + apply value_eqb_eq in E. subst k'. split.
      * intros [H | H]; [congruence | ].
        exfalso. apply (lt_not_in k (map fst g) Hall).
        apply in_map_iff. now exists (k, t).
      * intros H. left. congruence.
    + rewrite <- (IH Hasc). split; [ | tauto].
      intros [H | H]; [ | exact H].
      injection H as -> ->. now rewrite value_eqb_refl in E.
Qed.

End Grouping.

(** ** Sorting the totals *)







(** ** Column assignment and the store *)

Lemma get_col_set_col_same c s d : get_col c (set_col c s d) = Ok s.
Proof.
  induction d as [| [c' s'] d IH]; simpl.
  - now rewrite String.eqb_refl.
  - destruct (String.eqb c c') eqn:E; simpl; rewrite E; [reflexivity | exact IH].
Qed.

Lemma get_col_set_col_other c c0 s d :
  c0 <> c -> get_col c0 (set_col c s d) = get_col c0 d.
Proof.
  intros Hne. induction d as [| [c' s'] d IH]; simpl.
  - destruct (String.eqb_spec c0 c); [contradiction | reflexivity].
  - destruct (String.eqb_spec c c') as [<- | Hc]; simpl.
    + destruct (String.eqb_spec c0 c); [contradiction | reflexivity].
    + destruct (String.eqb c0 c'); [reflexivity | exact IH].
Qed.

Lemma nth_list_set {A} (i : nat) (x d : A) (l : list A) :
  (i < List.length l)%nat -> nth i (list_set i x l) d = x.
Proof.
  revert i. induction l as [| y l IH]; intros i Hi; simpl in Hi; [lia | ].
  destruct i as [| i]; simpl; [reflexivity | apply IH; lia].
Qed.

Lemma list_set_twice {A} (i : nat) (x y : A) (l : list A) :
  list_set i x (list_set i y l) = list_set i x l.
Proof.
  revert i. induction l as [| z l IH]; intros i; [now destruct i | ].
  destruct i as [| i]; simpl; [reflexivity | now rewrite IH].
Qed.

Lemma length_list_set {A} (i : nat) (x : A) (l : list A) :
  List.length (list_set i x l) = List.length l.
Proof.
  revert i. induction l as [| y l IH]; intros i; [now destruct i | ].
  destruct i as [| i]; simpl; [reflexivity | now rewrite IH].
Qed.

(** A frame that is not empty sits behind a live reference. *)
Lemma nonempty_frame_live w df :
  df_empty (frame w df) = false -> (df < List.length (heap w))%nat.
Proof.
  unfold frame. intros H.
  destruct (Nat.lt_ge_cases df (List.length (heap w))) as [Hlt | Hge]; [exact Hlt | ].
  rewrite nth_overflow in H by exact Hge. discriminate.
Qed.

(** ** The category chart *)




(** ** The monthly summary *)

(** What [monthly_summary] does with a table that is not empty, whose dates
    all read as dates and whose amounts are all numbers: it rebinds two
    columns of the caller's frame and prints the totals and the statistics. *)
Lemma monthly_summary_run w df dates stamps amounts ms l :
  df_empty (frame w df) = false ->
  get_col "Date" (frame w df) = Ok dates ->
  to_datetime dates = Ok stamps ->
  get_col "Amount" (frame w df) = Ok amounts ->
  groupby_sum (to_period_M stamps) amounts = Ok ms ->
  numbers_of amounts = Ok (Some l) ->
  monthly_summary df w =
  (Ok tt,
   mkWorld (disk w) (stdin w)
     (stdout w ++
      Printed (nl ++ "--- Monthly Spending ---") :: PrintedSeries ms ::
      stats_events l)
     (today w)
     (list_set df (with_year_month stamps (frame w df)) (heap w))).
Proof.
  intros He Hd Hs Ha Hg Hn.
  pose proof (nonempty_frame_live w df He) as Hlive.
  set (d := frame w df) in *.
  set (d1 := set_col "Date" stamps d).
  set (d2 := set_col "YearMonth" (to_period_M stamps) d1).
  assert (get_col "Date" d1 = Ok stamps) as Hd1
    by apply get_col_set_col_same.
  assert (groupby_amount "YearMonth" d2 = Ok ms) as Hg2.
  { unfold groupby_amount, d2. rewrite get_col_set_col_same.
    rewrite get_col_set_col_other by discriminate.
    unfold d1. rewrite get_col_set_col_other by discriminate.
    rewrite Ha. exact Hg. }
  assert (get_col "Amount" d2 = Ok amounts) as Ha2.
  { unfold d2, d1. rewrite !get_col_set_col_other by discriminate. exact Ha. }
  assert (forall dk sin sout td x,
            frame (mkWorld dk sin sout td (list_set df x (heap w))) df = x)
    as Hframe.
  { intros. unfold frame. cbn [heap]. now apply nth_list_set. }
  unfold monthly_summary, bind, deref. fold d. rewrite He.
  unfold lift at 1. rewrite Hd. unfold lift at 1. rewrite Hs.
  unfold assign. cbn [disk stdin stdout today heap].
  rewrite !Hframe. fold d1.
  unfold lift at 1. rewrite Hd1. fold d2.
  cbn [disk stdin stdout today heap]. rewrite ?list_set_twice, ?Hframe.
  unfold lift at 1. rewrite Hg2.
  unfold print, emit. cbn [disk stdin stdout today heap].
  rewrite ?list_set_twice, ?Hframe.
  unfold lift at 1. rewrite Ha2.
  unfold lift, np_sum, np_mean, np_max, np_min, np_reduce. rewrite Hn.
  cbn [disk stdin stdout today heap format_stat].
  unfold stats_events, with_year_month. fold d1. fold d2.
  rewrite <- !app_assoc. reflexivity.
Qed.

(** ** Totals by category and by month *)



Lemma numbers_of_all amounts :
  Forall (fun a => exists x, a = VNum x) amounts ->
  numbers_of amounts = Ok (Some (map amount_of amounts)) /\
  Forall (fun a => is_amount a = true) amounts.
Proof.
  induction 1 as [| a amounts [x ->] _ [IH1 IH2]]; simpl.
  - split; [reflexivity | constructor].
  - rewrite IH1. split; [reflexivity | now constructor].
Qed.





(** ** Numbers as text: [float(repr(x)) = x] *)









(** *** Text without surrounding whitespace is left alone by [strip] *)





Lemma last_char_app_r a b :
  b <> EmptyString -> last_char (a ++ b) = last_char b.
Proof.
  intros Hb. induction a as [| x a IH]; simpl; [reflexivity | ].
  rewrite IH. destruct (a ++ b)%string eqn:E; [ | reflexivity].
  destruct a; simpl in E; [contradiction | discriminate].
Qed.






(** ** The tokenizer reads back what the writer wrote *)

Module Tokenizer.


















End Tokenizer.

(** ** Records and columns *)





(** ** Type inference gives the cells back *)








(** ** Save, then load *)






(** ** Further properties *)

(** The category chart reads the table and nothing else: whatever the
    table, the store of frames, the file and the pending input are left as
    they were. *)
Theorem plot_by_category_leaves_the_table (w : World) (df : ref) :
  heap (snd (plot_by_category df w)) = heap w /\
  disk (snd (plot_by_category df w)) = disk w /\
  stdin (snd (plot_by_category df w)) = stdin w.
Proof.
  unfold plot_by_category, bind, deref, lift, print, emit.
  destruct (df_empty (frame w df)); [repeat split | ].
  destruct (groupby_amount "Category" (frame w df)); repeat split.
Qed.

(** The totals of the monthly summary and of the daily trend come one per
    key, in strictly ascending order of the keys; for months and days that
    is the chronological order. *)
Theorem grouped_totals_ascending (keys amounts : Series) (g : KeyedSeries) :
  groupby_sum keys amounts = Ok g ->
  Forall (fun a => is_amount a = true) amounts ->
  ascending_keys (map fst g) /\
  NoDup (map fst g) /\
  (forall y1 m1 y2 m2,
     key_lt (VPeriod y1 m1) (VPeriod y2 m2) <->
     y1 < y2 \/ y1 = y2 /\ m1 < m2).
Proof.
  intros Hg Ham.
  destruct (Grouping.groupby_sum_from_spec keys amounts [] Ham I)
    as (g' & Hrun & Hasc & _).
  unfold groupby_sum in Hg. rewrite Hrun in Hg. injection Hg as <-.
  split; [exact Hasc | split; [now apply Grouping.ascending_NoDup | ]].
  intros y1 m1 y2 m2. unfold key_lt. cbn [value_leb]. split.
  - intros [Hle Hne].
    destruct (Z.eq_dec y1 y2) as [-> | Hy].
    + right. split; [reflexivity | ].
      destruct (Z.eq_dec m1 m2) as [-> | Hm]; [congruence | lia].
    + left. lia.
  - intros H. split; [lia | ]. intros E. injection E as -> ->. lia.
Qed.

(** The months of the scenario. *)
Lemma grouped_totals_ascending_witness :
  ascending_keys (map fst [(VPeriod 2024 1, Dec.Int 25); (VPeriod 2024 2, Dec.Int 30)]).
Proof.
  apply (grouped_totals_ascending
           [VPeriod 2024 1; VPeriod 2024 1; VPeriod 2024 2]
           [VNum (Dec.Int 10); VNum (Dec.Int 15); VNum (Dec.Int 30)]).
  - reflexivity.
  - repeat constructor.
Defined.



(** ** The menu loop and its fuel *)

Module Loop.

Lemma consumes_ret {A} (a : A) : consumes (ret a).
Proof. intros w. simpl. lia. Qed.

Lemma consumes_bind {A B} (c : M A) (k : A -> M B) :
  consumes c -> (forall a, consumes (k a)) -> consumes (bind c k).
Proof.
  intros Hc Hk w. unfold bind. specialize (Hc w).
  destruct (c w) as [[a | e] w1]; simpl in *; [ | exact Hc].
  specialize (Hk a w1). lia.
Qed.

Lemma consumes_lift {A} (r : result A) : consumes (lift r).
Proof. intros w. simpl. lia. Qed.

Lemma consumes_emit e : consumes (emit e).
Proof. intros w. simpl. lia. Qed.

Lemma consumes_deref r : consumes (deref r).
Proof. intros w. simpl. lia. Qed.

Lemma consumes_assign r d : consumes (assign r d).
Proof. intros w. simpl. lia. Qed.

Lemma consumes_alloc d : consumes (alloc d).
Proof. intros w. simpl. lia. Qed.

Lemma consumes_write_file t : consumes (write_file t).
Proof. intros w. simpl. lia. Qed.

Lemma consumes_today : consumes datetime_today.
Proof. intros w. simpl. lia. Qed.

Lemma consumes_input p : consumes (input p).
Proof.
  intros w. unfold input, bind, emit; simpl.
  destruct (stdin w); simpl; lia.
Qed.

Lemma amount_loop_suffix ins :
  forall out, (List.length (snd (fst (amount_loop ins out))) <= List.length ins)%nat.
Proof.
  induction ins as [| l ins IH]; intros out; simpl; [lia | ].
  destruct (py_float l); simpl; [lia | ].
  destruct (float_unmodelled l); simpl; [lia | ].
  specialize (IH (out ++ [Prompted "Amount: ";
                          Printed "Please enter a valid number for amount."])).
  lia.
Qed.

Lemma consumes_read_amount : consumes read_amount.
Proof.
  intros w. unfold read_amount.
  pose proof (amount_loop_suffix (stdin w) (stdout w)) as H.
  destruct (amount_loop (stdin w) (stdout w)) as [[res ins] out]. exact H.
Qed.

Ltac consume :=
  repeat first
    [ apply consumes_ret | apply consumes_lift | apply consumes_emit
    | apply consumes_deref | apply consumes_assign | apply consumes_alloc
    | apply consumes_write_file | apply consumes_today | apply consumes_input
    | apply consumes_read_amount
    | apply consumes_bind; [ | intros ]
    | match goal with
      | |- consumes (if ?b then _ else _) => destruct b
      | |- consumes (match ?x with _ => _ end) => destruct x
      end ].

Lemma consumes_add_expense df : consumes (add_expense df).
Proof. unfold add_expense, save_expenses, print. consume. Qed.

Lemma consumes_view_expenses df n : consumes (view_expenses df n).
Proof. unfold view_expenses, print. consume. Qed.

Lemma consumes_monthly_summary df : consumes (monthly_summary df).
Proof. unfold monthly_summary, print. consume. Qed.

Lemma consumes_plot_by_category df : consumes (plot_by_category df).
Proof. unfold plot_by_category, print. consume. Qed.

Lemma consumes_plot_daily_trend df : consumes (plot_daily_trend df).
Proof. unfold plot_daily_trend, print. consume. Qed.

Lemma consumes_dispatch c df : consumes (dispatch c df).
Proof.
  unfold dispatch, print.
  repeat match goal with
         | |- consumes (if ?b then _ else _) => destruct b
         end;
    repeat first
      [ apply consumes_add_expense | apply consumes_view_expenses
      | apply consumes_monthly_summary | apply consumes_plot_by_category
      | apply consumes_plot_daily_trend | apply consumes_ret
      | apply consumes_emit | apply consumes_bind; [ | intros ] ].
Qed.

Lemma print_menu_stdin w : stdin (snd (print_menu w)) = stdin w.
Proof. reflexivity. Qed.

Lemma print_menu_ok w : exists w1, print_menu w = (Ok tt, w1).
Proof. eexists. reflexivity. Qed.

Lemma input_takes_one p w l w1 :
  input p w = (Ok l, w1) -> stdin w = l :: stdin w1.
Proof.
  unfold input, bind, emit; simpl.
  destruct (stdin w) as [| x r]; simpl; [discriminate | ].
  intros H. injection H as <- <-. reflexivity.
Qed.

(** One more turn of fuel changes nothing once the fuel exceeds the number
    of pending lines. *)
Lemma main_loop_step f :
  forall df w,
    (List.length (stdin w) < f)%nat ->
    main_loop f df w = main_loop (S f) df w.
Proof.
  induction f as [| f IH]; intros df w Hw; [lia | ].
  change (main_loop (S (S f)) df w)
    with ((print_menu ;;;
           choice <- input "Choose an option: " ;;
           next <- dispatch (strip choice) df ;;
           match next with
           | Some df' => main_loop (S f) df'
           | None => ret tt
           end) w).
  change (main_loop (S f) df w)
    with ((print_menu ;;;
           choice <- input "Choose an option: " ;;
           next <- dispatch (strip choice) df ;;
           match next with
           | Some df' => main_loop f df'
           | None => ret tt
           end) w).
  unfold bind at 1 4.
  pose proof (print_menu_stdin w) as Hm.
  destruct (print_menu w) as [[u | e] w1]; [ | reflexivity]. simpl in Hm.
  unfold bind at 1 3.
  destruct (input "Choose an option: " w1) as [[l | e] w2] eqn:Ein;
    [ | reflexivity].
  apply input_takes_one in Ein.
  unfold bind.
  pose proof (consumes_dispatch (strip l) df w2) as Hd.
  destruct (dispatch (strip l) df w2) as [[[df' | ] | e] w3];
    try reflexivity.
  simpl in Hd. apply IH.
  rewrite <- Hm, Ein in Hw. simpl in Hw. lia.
Qed.

End Loop.

(** The fuel [main] gives its loop, one turn more than there are lines to
    type, is never used up: any larger fuel gives the same run.  Every turn
    takes a line, so the loop ends with the choice 0 or, when the input
    ends first, with [EOFError]. *)
Theorem main_loop_fuel_suffices (f : nat) (df : ref) (w : World) :
  (List.length (stdin w) < f)%nat ->
  main_loop f df w = main_loop (S (List.length (stdin w))) df w.
Proof.
  intros Hf.
  induction f as [| f IH]; [lia | ].
  destruct (Nat.eq_dec f (List.length (stdin w))) as [-> | Hne];
    [reflexivity | ].
  rewrite <- IH by lia. symmetry. apply Loop.main_loop_step. lia.
Qed.

(** Two lines to type: three turns of fuel do as well as a hundred. *)
Lemma main_loop_fuel_witness :
  main_loop 100 0%nat (session scenario_table ["2"; "0"]) =
  main_loop 3 0%nat (session scenario_table ["2"; "0"]).
Proof.
  apply (main_loop_fuel_suffices 100 0%nat (session scenario_table ["2"; "0"])).
  simpl. lia.
Defined.

(** ** Asking for the summary twice *)



Lemma list_set_same {A} (i : nat) (d : A) (l : list A) :
  list_set i (nth i l d) l = l.
Proof.
  revert i. induction l as [| x l IH]; intros i; [now destruct i | ].
  destruct i as [| i]; simpl; [reflexivity | now rewrite IH].
Qed.

Lemma df_empty_set_col c s d :
  df_empty d = false -> List.length s = nrows d -> df_empty (set_col c s d) = false.
Proof.
  destruct d as [| [c' s'] d]; simpl; [discriminate | ].
  intros H Hl. destruct (String.eqb c c'); simpl; [ | exact H].
  now rewrite Hl.
Qed.




(** ** Viewing the last expenses *)

Lemma columns_tail n d : columns (tail n d) = columns d.
Proof. unfold columns, tail. rewrite map_map. reflexivity. Qed.

Lemma nrows_tail n d : nrows (tail n d) = Nat.min n (nrows d).
Proof.
  destruct d as [| [c s] d]; simpl; [lia | ].
  rewrite length_skipn. lia.
Qed.

Lemma get_col_tail n c d s :
  get_col c d = Ok s ->
  get_col c (tail n d) = Ok (skipn (List.length s - n) s).
Proof.
  induction d as [| [c' s'] d IH]; simpl; [discriminate | ].
  destruct (String.eqb c c'); [ | exact IH].
  intros H. injection H as ->. reflexivity.
Qed.

Lemma tail_short n d :
  Forall (fun cs => (List.length (snd cs) <= n)%nat) d -> tail n d = d.
Proof.
  induction 1 as [| [c s] d Hs _ IH]; simpl; [reflexivity | ].
  simpl in Hs. fold (tail n d). rewrite IH.
  replace (List.length s - n)%nat with 0%nat by lia. reflexivity.
Qed.


(** What [view_expenses] does with a table that is not empty. *)
Lemma view_expenses_run w df n :
  df_empty (frame w df) = false ->
  view_expenses df n w =
  (Ok tt, say w (view_events n (tail n (frame w df)))).
Proof.
  intros He. unfold view_expenses, bind, deref, print, emit. rewrite He.
  unfold say, view_events. cbn [disk stdin stdout today heap].
  rewrite <- !app_assoc. reflexivity.
Qed.

(** For a table that is not empty, the view prints its heading, the frame
    [df.tail(n)] and an empty line, and changes nothing else.  The frame
    shown has the columns of the table; each of its columns holds the last
    [n] cells of the table's column, in their order (all of them when there
    are fewer than [n]); a table of at most [n] rows is shown whole. *)
Theorem view_expenses_shows_last_rows (w : World) (df : ref) (n : nat) :
  df_empty (frame w df) = false ->
  view_expenses df n w =
    (Ok tt, say w (view_events n (tail n (frame w df)))) /\
  columns (tail n (frame w df)) = columns (frame w df) /\
  nrows (tail n (frame w df)) = Nat.min n (nrows (frame w df)) /\
  (forall c s,
     get_col c (frame w df) = Ok s ->
     exists older shown,
       s = older ++ shown /\
       get_col c (tail n (frame w df)) = Ok shown /\
       List.length shown = Nat.min n (List.length s)) /\
  (rectangular (frame w df) -> (nrows (frame w df) <= n)%nat ->
   tail n (frame w df) = frame w df).
Proof.
  intros He.
  split; [now apply view_expenses_run | ].
  split; [apply columns_tail | ].
  split; [apply nrows_tail | ].
  split.
  - intros c s Hs.
    exists (firstn (List.length s - n) s), (skipn (List.length s - n) s).
    split; [symmetry; apply firstn_skipn | ].
    split; [now apply get_col_tail | ].
    rewrite length_skipn. lia.
  - intros Hrect Hn. apply tail_short.
    eapply Forall_impl; [ | exact Hrect].
    intros cs Hcs. simpl in Hcs. lia.
Qed.

(** The scenario table, of which the last two expenses are viewed. *)
Lemma view_expenses_witness :
  view_expenses 0%nat 2 (session scenario_table []) =
    (Ok tt, say (session scenario_table [])
                (view_events 2 (tail 2 scenario_table))) /\
  get_col "Description" (tail 2 scenario_table) =
    Ok [VStr "Dinner"; VStr "Taxi"].
Proof.
  destruct (view_expenses_shows_last_rows (session scenario_table []) 0%nat 2
              eq_refl) as (Hrun & _).
  split; [exact Hrun | reflexivity].
Defined.




(** ** An add that is not carried through *)





(** ** From one session to the next *)




(** ** What a session does to the file and to the input *)

Module Session.

Lemma quiet_ret {A} (a : A) : quiet (ret a).
Proof. intros w. split; reflexivity. Qed.

Lemma quiet_bind {A B} (c : M A) (k : A -> M B) :
  quiet c -> (forall a, quiet (k a)) -> quiet (bind c k).
Proof.
  intros Hc Hk w. unfold bind. destruct (Hc w) as [Hd Hs].
  destruct (c w) as [[a | e] w1]; simpl in *; [ | now split].
  destruct (Hk a w1) as [Hd1 Hs1]. split; congruence.
Qed.

Lemma quiet_lift {A} (r : result A) : quiet (lift r).
Proof. intros w. split; reflexivity. Qed.

Lemma quiet_emit e : quiet (emit e).
Proof. intros w. split; reflexivity. Qed.

Lemma quiet_deref r : quiet (deref r).
Proof. intros w. split; reflexivity. Qed.

Lemma quiet_assign r d : quiet (assign r d).
Proof. intros w. split; reflexivity. Qed.

Lemma quiet_alloc d : quiet (alloc d).
Proof. intros w. split; reflexivity. Qed.

Lemma quiet_read_file : quiet read_file.
Proof. intros w. split; reflexivity. Qed.

Ltac hush :=
  repeat first
    [ apply quiet_ret | apply quiet_lift | apply quiet_emit
    | apply quiet_deref | apply quiet_assign | apply quiet_alloc
    | apply quiet_read_file
    | apply quiet_bind; [ | intros ]
    | match goal with
      | |- quiet (if ?b then _ else _) => destruct b
      | |- quiet (match ?x with _ => _ end) => destruct x
      end ].

Lemma quiet_view_expenses df n : quiet (view_expenses df n).
Proof. unfold view_expenses, print. hush. Qed.

Lemma quiet_monthly_summary df : quiet (monthly_summary df).
Proof. unfold monthly_summary, print. hush. Qed.

Lemma quiet_plot_by_category df : quiet (plot_by_category df).
Proof. unfold plot_by_category, print. hush. Qed.

Lemma quiet_plot_daily_trend df : quiet (plot_daily_trend df).
Proof. unfold plot_daily_trend, print. hush. Qed.

Lemma quiet_print_menu : quiet print_menu.
Proof. unfold print_menu, print. hush. Qed.

Lemma quiet_load_expenses : quiet load_expenses.
Proof. unfold load_expenses. hush. Qed.

(** Every choice but 1 leaves the file and the input alone. *)
Lemma quiet_dispatch c df : c <> "1" -> quiet (dispatch c df).
Proof.
  intros Hc. unfold dispatch, print.
  destruct (String.eqb_spec c "1") as [E | _]; [contradiction | ].
  repeat match goal with
         | |- quiet (if ?b then _ else _) => destruct b
         end;
    repeat first
      [ apply quiet_view_expenses | apply quiet_monthly_summary
      | apply quiet_plot_by_category | apply quiet_plot_daily_trend
      | apply quiet_ret | apply quiet_emit
      | apply quiet_bind; [ | intros ] ].
Qed.

Lemma input_ok p w l w1 :
  input p w = (Ok l, w1) ->
  stdin w = l :: stdin w1 /\ disk w1 = disk w /\
  stdout w1 = stdout w ++ [Prompted p].
Proof.
  unfold input, bind, emit; simpl.
  destruct (stdin w) as [| x r]; simpl; [discriminate | ].
  intros H. injection H as <- <-. repeat split.
Qed.



(** *** Lines are taken from the front of the input *)

Lemma reads_ret {A} (a : A) : reads (ret a).
Proof. intros w. now exists []. Qed.

Lemma reads_bind {A B} (c : M A) (k : A -> M B) :
  reads c -> (forall a, reads (k a)) -> reads (bind c k).
Proof.
  intros Hc Hk w. unfold bind. destruct (Hc w) as [t1 H1].
  destruct (c w) as [[a | e] w1]; simpl in *; [ | now exists t1].
  destruct (Hk a w1) as [t2 H2]. exists (t1 ++ t2).
  rewrite <- app_assoc. congruence.
Qed.

Lemma reads_quiet {A} (c : M A) : quiet c -> reads c.
Proof. intros H w. exists []. destruct (H w) as [_ Hs]. now rewrite Hs. Qed.

Lemma reads_write_file t : reads (write_file t).
Proof. intros w. now exists []. Qed.

Lemma reads_today : reads datetime_today.
Proof. intros w. now exists []. Qed.

Lemma reads_input p : reads (input p).
Proof.
  intros w. unfold input, bind, emit; simpl.
  destruct (stdin w) as [| l r]; simpl; [now exists [] | now exists [l]].
Qed.

Lemma amount_loop_takes ins :
  forall out, exists taken, ins = taken ++ snd (fst (amount_loop ins out)).
Proof.
  induction ins as [| l ins IH]; intros out; simpl; [now exists [] | ].
  destruct (py_float l); simpl; [now exists [l] | ].
  destruct (float_unmodelled l); simpl; [now exists [l] | ].
  destruct (IH (out ++ [Prompted "Amount: ";
                        Printed "Please enter a valid number for amount."]))
    as [t Ht].
  exists (l :: t). simpl. now rewrite <- Ht.
Qed.

Lemma reads_read_amount : reads read_amount.
Proof.
  intros w. unfold read_amount.
  destruct (amount_loop_takes (stdin w) (stdout w)) as [t Ht].
  destruct (amount_loop (stdin w) (stdout w)) as [[res ins] out].
  now exists t.
Qed.

Lemma reads_add_expense df : reads (add_expense df).
Proof.
  unfold add_expense, save_expenses, print.
  repeat first
    [ apply reads_ret | apply reads_write_file | apply reads_today
    | apply reads_input | apply reads_read_amount
    | apply reads_quiet; first [ apply quiet_emit | apply quiet_deref
                               | apply quiet_alloc ]
    | apply reads_bind; [ | intros ]
    | match goal with
      | |- reads (match ?x with _ => _ end) => destruct x
      end ].
Qed.

Lemma reads_dispatch c df : reads (dispatch c df).
Proof.
  destruct (String.eqb_spec c "1") as [-> | Hc].
  - unfold dispatch. cbn [String.eqb Ascii.eqb Bool.eqb].
    apply reads_bind; [apply reads_add_expense | intros; apply reads_ret].
  - apply reads_quiet, quiet_dispatch, Hc.
Qed.

(** The loop is left only through the choice 0, with the farewell. *)
Lemma dispatch_exit c df w w' :
  dispatch c df w = (Ok None, w') ->
  c = "0" /\ stdout w' = stdout w ++ [Printed "Goodbye!"].
Proof.
  unfold dispatch.
  destruct (String.eqb c "1").
  { unfold bind. destruct (add_expense df w) as [[a | e] w1];
      simpl; discriminate. }
  destruct (String.eqb c "2").
  { unfold bind. destruct (view_expenses df 10 w) as [[a | e] w1];
      simpl; discriminate. }
  destruct (String.eqb c "3").
  { unfold bind. destruct (monthly_summary df w) as [[a | e] w1];
      simpl; discriminate. }
  destruct (String.eqb c "4").
  { unfold bind. destruct (plot_by_category df w) as [[a | e] w1];
      simpl; discriminate. }
  destruct (String.eqb c "5").
  { unfold bind. destruct (plot_daily_trend df w) as [[a | e] w1];
      simpl; discriminate. }
  destruct (String.eqb_spec c "0") as [-> | _].
  - unfold bind, print, emit, ret; simpl. intros H. injection H as <-.
    split; reflexivity.
  - unfold bind, print, emit, ret; simpl. discriminate.
Qed.

Lemma main_loop_exit f :
  forall df w w',
    (List.length (stdin w) < f)%nat ->
    main_loop f df w = (Ok tt, w') ->
    (exists l, In l (stdin w) /\ strip l = "0") /\
    last (stdout w') (Printed EmptyString) = Printed "Goodbye!".
Proof.
  induction f as [| f IH]; intros df w w' Hf; [lia | ].
  cbn [main_loop]. unfold bind at 1.
  destruct (quiet_print_menu w) as [_ Hs1].
  destruct (print_menu w) as [[u | e] w1]; cbn [snd] in *; [ | discriminate].
  unfold bind at 1.
  destruct (input "Choose an option: " w1) as [[l | e] w2] eqn:Ein;
    [ | discriminate].
  apply input_ok in Ein. destruct Ein as (Hs2 & _ & _).
  rewrite Hs1 in Hs2.
  unfold bind.
  destruct (reads_dispatch (strip l) df w2) as [taken Ht].
  destruct (dispatch (strip l) df w2) as [[[df' | ] | e] w3] eqn:Ed;
    cbn [snd] in *; [ | | discriminate].
  - intros Hrun. apply IH in Hrun.
    + destruct Hrun as [(l0 & Hin & H0) Hlast]. split; [ | exact Hlast].
      exists l0. split; [ | exact H0].
      rewrite Hs2, Ht. right. apply in_or_app. now right.
    + rewrite Hs2, Ht in Hf. simpl in Hf. rewrite length_app in Hf. lia.
  - apply dispatch_exit in Ed. destruct Ed as [Hc Hout].
    unfold ret. intros H. injection H as <-. split.
    + exists l. split; [rewrite Hs2; now left | exact Hc].
    + rewrite Hout. apply last_last.
Qed.

End Session.



(** A session ends normally only through the choice 0: when [main] returns,
    one of the lines typed was 0 (blanks around it aside) and the last
    thing written is the farewell.  Without such a line the session ends
    with an exception ([EOFError] when the input ends). *)
Theorem main_ends_only_by_exit (w : World) :
  fst (main w) = Ok tt ->
  (exists l, In l (stdin w) /\ strip l = "0") /\
  last (stdout (snd (main w))) (Printed EmptyString) = Printed "Goodbye!".
Proof.
  unfold main, bind.
  destruct (Session.quiet_load_expenses w) as [_ Hs].
  destruct (load_expenses w) as [[df | e] w1]; cbn [fst snd] in *;
    [ | discriminate].
  destruct (main_loop (S (List.length (stdin w1))) df w1) as [[[] | e] w']
    eqn:Erun; cbn [fst snd]; [ | discriminate].
  intros _. apply Session.main_loop_exit in Erun; [ | lia].
  rewrite Hs in Erun. exact Erun.
Qed.

(** A session that views the table and leaves; a line stays unread. *)
Lemma main_ends_witness :
  last (stdout (snd (main (session scenario_table ["2"; " 0 "; "unread"]))))
       (Printed EmptyString) = Printed "Goodbye!".
Proof.
  apply (main_ends_only_by_exit (session scenario_table ["2"; " 0 "; "unread"])).
  reflexivity.
Defined.

(** ** The totals by month and by day *)

(** The totals of a grouping: one per key that occurs, the sum of the
    amounts of its rows. *)
Lemma groupby_sum_rows keys amounts :
  Forall (fun a => is_amount a = true) amounts ->
  exists g,
    groupby_sum keys amounts = Ok g /\
    ascending_keys (map fst g) /\
    (forall k t,
       In (k, t) g <->
       present k = true /\ group_rows k keys amounts <> [] /\
       t = Dec.sum (group_rows k keys amounts)).
Proof.
  intros Ham.
  destruct (Grouping.groupby_sum_from_spec keys amounts [] Ham I)
    as (g & Hrun & Hasc & Hlook & Hnan & _).
  exists g. split; [exact Hrun | split; [exact Hasc | ]].
  intros k t. split.
  - intros Hin.
    assert (present k = true) as Hp.
    { destruct k; try reflexivity. exfalso. apply Hnan; [tauto | ].
      apply in_map_iff. now exists (VNaN, t). }
    apply (Grouping.In_lookup k t g Hasc) in Hin.
    rewrite (Hlook k Hp) in Hin. simpl in Hin.
    destruct (group_rows k keys amounts) as [| x rows] eqn:Er;
      simpl in Hin; [discriminate | ].
    injection Hin as <-. repeat split; congruence.
  - intros (Hp & Hne & ->).
    apply (Grouping.In_lookup _ _ g Hasc).
    rewrite (Hlook k Hp). simpl.
    destruct (group_rows k keys amounts); [congruence | reflexivity].
Qed.




Lemma numbers_of_amounts amounts :
  Forall (fun a => is_amount a = true) amounts ->
  exists o,
    numbers_of amounts = Ok o /\
    (In VNaN amounts -> o = None) /\
    (~ In VNaN amounts -> o = Some (map amount_of amounts)).
Proof.
  induction 1 as [| a amounts Ha _ (o & Hn & Hnan & Hnum)].
  - exists (Some []). repeat split. intros [].
  - destruct a as [ | x | | | | ]; simpl in Ha; try discriminate.
    + cbn [numbers_of]. rewrite Hn. destruct o as [l | ].
      * exists (Some (x :: l)). split; [reflexivity | split].
        -- intros [E | Hin]; [discriminate | ].
           specialize (Hnan Hin). discriminate.
        -- intros Hno. simpl. f_equal. f_equal.
           assert (Some l = Some (map amount_of amounts)) as E
             by (apply Hnum; intros Hin; apply Hno; now right).
           now injection E.
      * exists None. split; [reflexivity | split; [reflexivity | ]].
        intros Hno. exfalso.
        assert (None = Some (map amount_of amounts)) as E
          by (apply Hnum; intros Hin; apply Hno; now right).
        discriminate.
    + cbn [numbers_of]. rewrite Hn. exists None.
      split; [reflexivity | split; [reflexivity | ]].
      intros Hno. exfalso. apply Hno. now left.
Qed.

(** ** The monthly summary, whatever the amounts *)

Lemma monthly_summary_run_any w df dates stamps amounts ms o :
  df_empty (frame w df) = false ->
  get_col "Date" (frame w df) = Ok dates ->
  to_datetime dates = Ok stamps ->
  get_col "Amount" (frame w df) = Ok amounts ->
  groupby_sum (to_period_M stamps) amounts = Ok ms ->
  numbers_of amounts = Ok o ->
  monthly_summary df w =
  (Ok tt,
   mkWorld (disk w) (stdin w)
     (stdout w ++
      Printed (nl ++ "--- Monthly Spending ---")%string :: PrintedSeries ms ::
      stats_lines o)
     (today w)
     (list_set df (with_year_month stamps (frame w df)) (heap w))).
Proof.
  intros He Hd Hs Ha Hg Hn.
  destruct o as [l | ].
  { exact (monthly_summary_run w df dates stamps amounts ms l
             He Hd Hs Ha Hg Hn). }
  pose proof (nonempty_frame_live w df He) as Hlive.
  set (d := frame w df) in *.
  set (d1 := set_col "Date" stamps d).
  set (d2 := set_col "YearMonth" (to_period_M stamps) d1).
  assert (get_col "Date" d1 = Ok stamps) as Hd1
    by apply get_col_set_col_same.
  assert (groupby_amount "YearMonth" d2 = Ok ms) as Hg2.
  { unfold groupby_amount, d2. rewrite get_col_set_col_same.
    rewrite get_col_set_col_other by discriminate.
    unfold d1. rewrite get_col_set_col_other by discriminate.
    rewrite Ha. exact Hg. }
  assert (get_col "Amount" d2 = Ok amounts) as Ha2.
  { unfold d2, d1. rewrite !get_col_set_col_other by discriminate. exact Ha. }
  assert (forall dk sin sout td x,
            frame (mkWorld dk sin sout td (list_set df x (heap w))) df = x)
    as Hframe.
  { intros. unfold frame. cbn [heap]. now apply nth_list_set. }
  unfold monthly_summary, bind, deref. fold d. rewrite He.
  unfold lift at 1. rewrite Hd. unfold lift at 1. rewrite Hs.
  unfold assign. cbn [disk stdin stdout today heap].
  rewrite !Hframe. fold d1.
  unfold lift at 1. rewrite Hd1. fold d2.
  cbn [disk stdin stdout today heap]. rewrite ?list_set_twice, ?Hframe.
  unfold lift at 1. rewrite Hg2.
  unfold print, emit. cbn [disk stdin stdout today heap].
  rewrite ?list_set_twice, ?Hframe.
  unfold lift at 1. rewrite Ha2.
  unfold lift, np_sum, np_mean, np_max, np_min, np_reduce. rewrite Hn.
  cbn [disk stdin stdout today heap format_stat].
  unfold stats_lines, nan_stats_events, with_year_month. fold d1. fold d2.
  rewrite <- !app_assoc. reflexivity.
Qed.





(** ** What the summaries change, and what they leave *)

Lemma columns_set_col c s d :
  columns (set_col c s d) =
  if mem_string c (columns d) then columns d else columns d ++ [c].
Proof.
  induction d as [| [c' s'] d IH]; simpl; [reflexivity | ].
  destruct (String.eqb c c'); simpl; [reflexivity | ].
  rewrite IH. fold (columns d). now destruct (mem_string c (columns d)).
Qed.

Lemma nth_list_set_other {A} (i j : nat) (x d : A) (l : list A) :
  i <> j -> nth j (list_set i x l) d = nth j l d.
Proof.
  revert i j. induction l as [| y l IH]; intros i j Hij.
  - now destruct i.
  - destruct i as [| i], j as [| j]; simpl; try reflexivity;
      [congruence | apply IH; congruence].
Qed.

Lemma to_datetime_each dates :
  forall stamps,
    to_datetime dates = Ok stamps ->
    Forall2 (fun old new => to_datetime1 old = Ok new) dates stamps.
Proof.
  induction dates as [| v dates IH]; intros stamps H; simpl in H.
  - injection H as <-. constructor.
  - destruct (to_datetime1 v) as [v' | e] eqn:E1; [ | discriminate].
    destruct (to_datetime dates) as [r | e]; [ | discriminate].
    injection H as <-. constructor; [exact E1 | now apply IH].
Qed.




(** For a table that is not empty, whose dates read as dates and whose
    amounts are numbers or missing, the monthly summary changes two columns
    of the table and nothing else: each Date becomes its timestamp, the
    column YearMonth holds the month of each Date (a new last column when
    the table had none), every other column keeps its cells, and the other
    frames, the file and the input stay as they were. *)
Theorem monthly_summary_changes_two_columns
  (w : World) (df : ref) (dates stamps amounts : Series) :
  df_empty (frame w df) = false ->
  get_col "Date" (frame w df) = Ok dates ->
  to_datetime dates = Ok stamps ->
  get_col "Amount" (frame w df) = Ok amounts ->
  Forall (fun a => is_amount a = true) amounts ->
  exists w' : World,
    monthly_summary df w = (Ok tt, w') /\
    disk w' = disk w /\
    stdin w' = stdin w /\
    get_col "Date" (frame w' df) = Ok stamps /\
    Forall2 (fun old new => to_datetime1 old = Ok new) dates stamps /\
    get_col "YearMonth" (frame w' df) = Ok (to_period_M stamps) /\
    columns (frame w' df) =
      (if mem_string "YearMonth" (columns (frame w df))
       then columns (frame w df)
       else columns (frame w df) ++ ["YearMonth"]) /\
    (forall c, c <> "Date" -> c <> "YearMonth" ->
       get_col c (frame w' df) = get_col c (frame w df)) /\
    (forall r, r <> df -> frame w' r = frame w r).
Proof.
  intros He Hd Hs Ha Ham.
  destruct (groupby_sum_rows (to_period_M stamps) amounts Ham)
    as (ms & Hms & _ & _).
  destruct (numbers_of_amounts amounts Ham) as (o & Hn & _).
  pose proof (nonempty_frame_live w df He) as Hlive.
  eexists.
  split; [exact (monthly_summary_run_any w df dates stamps amounts ms o
                   He Hd Hs Ha Hms Hn) | ].
  cbn [disk stdin stdout today heap].
  assert (forall dk sin sout td,
            frame (mkWorld dk sin sout td
                     (list_set df (with_year_month stamps (frame w df)) (heap w)))
                  df = with_year_month stamps (frame w df)) as Hf.
  { intros. unfold frame. cbn [heap]. now apply nth_list_set. }
  rewrite !Hf. unfold with_year_month.
  repeat match goal with |- _ /\ _ => split end;
    try reflexivity.
  - rewrite get_col_set_col_other by discriminate.
    apply get_col_set_col_same.
  - now apply to_datetime_each.
  - apply get_col_set_col_same.
  - rewrite !columns_set_col.
    now rewrite (get_col_columns "Date" _ _ Hd).
  - intros c Hc1 Hc2. now rewrite !get_col_set_col_other.
  - intros r Hr. unfold frame. cbn [heap].
    apply nth_list_set_other. congruence.
Qed.

(** The scenario table gets a fifth column, the months. *)
Lemma monthly_summary_changes_witness :
  exists w' : World,
    monthly_summary 0%nat (session scenario_table []) = (Ok tt, w') /\
    columns (frame w' 0%nat) =
      ["Date"; "Category"; "Description"; "Amount"; "YearMonth"] /\
    get_col "YearMonth" (frame w' 0%nat) =
      Ok [VPeriod 2024 1; VPeriod 2024 1; VPeriod 2024 2].
Proof.
  destruct (monthly_summary_changes_two_columns (session scenario_table []) 0%nat
              [VStr "2024-01-05"; VStr "2024-01-20"; VStr "2024-02-01"]
              scenario_stamps
              [VNum (Dec.Int 10); VNum (Dec.Int 15); VNum (Dec.Int 30)])
    as (w' & Hrun & _ & _ & _ & _ & Hym & Hcols & _);
    try reflexivity; try (repeat constructor; fail).
  exists w'. split; [exact Hrun | split; [exact Hcols | exact Hym]].
Defined.

(** ** Tables the summaries cannot work on *)

Lemma get_col_missing c d :
  mem_string c (columns d) = false -> get_col c d = Raise (KeyError c).
Proof.
  induction d as [| [c' s'] d IH]; simpl; [reflexivity | ].
  destruct (String.eqb c c'); simpl; [discriminate | exact IH].
Qed.

(** On a table that is not empty and has no Date column, the monthly
    summary and the daily trend end with [KeyError] for Date; on one that
    has no Category column, the category chart ends with [KeyError] for
    Category.  Nothing is printed or shown and nothing is changed. *)
Theorem summaries_need_their_columns (w : World) (df : ref) :
  df_empty (frame w df) = false ->
  (mem_string "Date" (columns (frame w df)) = false ->
   monthly_summary df w = (Raise (KeyError "Date"), w) /\
   plot_daily_trend df w = (Raise (KeyError "Date"), w)) /\
  (mem_string "Category" (columns (frame w df)) = false ->
   plot_by_category df w = (Raise (KeyError "Category"), w)).
Proof.
  intros He. split.
  - intros Hm. apply get_col_missing in Hm.
    unfold monthly_summary, plot_daily_trend, bind, deref, lift.
    rewrite He, Hm. split; reflexivity.
  - intros Hm. apply get_col_missing in Hm.
    unfold plot_by_category, bind, deref, lift, groupby_amount.
    rewrite He, Hm. reflexivity.
Qed.

(** A table with the columns Day and Amount. *)
Lemma summaries_need_their_columns_witness :
  monthly_summary 0%nat (session foreign_table []) =
    (Raise (KeyError "Date"), session foreign_table []) /\
  plot_daily_trend 0%nat (session foreign_table []) =
    (Raise (KeyError "Date"), session foreign_table []) /\
  plot_by_category 0%nat (session foreign_table []) =
    (Raise (KeyError "Category"), session foreign_table []).
Proof.
  destruct (summaries_need_their_columns (session foreign_table []) 0%nat
              eq_refl) as [Hdate Hcat].
  destruct (Hdate eq_refl) as [H1 H2].
  split; [exact H1 | split; [exact H2 | exact (Hcat eq_refl)]].
Defined.

(** On an empty table both charts write the single line that there is no
    data to plot: no figure is shown, the Date column is not converted, and
    the file and the input stay as they were. *)
Theorem plots_on_an_empty_table (w : World) (df : ref) :
  df_empty (frame w df) = true ->
  plot_by_category df w =
    (Ok tt, say w [Printed (nl ++ "No data to plot." ++ nl)%string]) /\
  plot_daily_trend df w =
    (Ok tt, say w [Printed (nl ++ "No data to plot." ++ nl)%string]).
Proof.
  intros He.
  unfold plot_by_category, plot_daily_trend, bind, deref.
  rewrite He. split; reflexivity.
Qed.

(** The empty table of a first start, plotted both ways. *)
Lemma plots_on_an_empty_table_witness :
  stdout (snd (plot_by_category 0%nat (session (empty_frame COLUMNS) []))) =
    [Printed (nl ++ "No data to plot." ++ nl)%string] /\
  stdout (snd (plot_daily_trend 0%nat (session (empty_frame COLUMNS) []))) =
    [Printed (nl ++ "No data to plot." ++ nl)%string].
Proof.
  destruct (plots_on_an_empty_table (session (empty_frame COLUMNS) []) 0%nat
              eq_refl) as [H1 H2].
  rewrite H1, H2. split; reflexivity.
Defined.

(** ** The turns of the menu *)




(** ** The largest and the smallest amount *)

Lemma fold_max_bounds l :
  forall x,
    In (fold_left Dec.max l x) (x :: l) /\
    forall y, In y (x :: l) -> Dec.leb y (fold_left Dec.max l x) = true.
Proof.
  induction l as [| z l IH]; intros x; cbn [fold_left].
  - split; [now left | ]. intros y [<- | []]. apply DecFacts.leb_refl.
  - destruct (IH (Dec.max x z)) as [Hin Hle]. split.
    + destruct Hin as [E | Hin]; [ | right; now right].
      rewrite <- E. unfold Dec.max.
      destruct (Dec.leb x z); [right; now left | now left].
    + assert (Dec.leb x (Dec.max x z) = true /\
              Dec.leb z (Dec.max x z) = true) as [Hx Hz].
      { unfold Dec.max. destruct (Dec.leb x z) eqn:E.
        - split; [exact E | apply DecFacts.leb_refl].
        - split; [apply DecFacts.leb_refl | now apply DecFacts.leb_total]. }
      pose proof (Hle (Dec.max x z) (or_introl eq_refl)) as Hm.
      intros y [<- | [<- | Hy]].
      * exact (KeyOrder.dec_leb_trans _ _ _ Hx Hm).
      * exact (KeyOrder.dec_leb_trans _ _ _ Hz Hm).
      * apply Hle. now right.
Qed.

Lemma fold_min_bounds l :
  forall x,
    In (fold_left Dec.min l x) (x :: l) /\
    forall y, In y (x :: l) -> Dec.leb (fold_left Dec.min l x) y = true.
Proof.
  induction l as [| z l IH]; intros x; cbn [fold_left].
  - split; [now left | ]. intros y [<- | []]. apply DecFacts.leb_refl.
  - destruct (IH (Dec.min x z)) as [Hin Hle]. split.
    + destruct Hin as [E | Hin]; [ | right; now right].
      rewrite <- E. unfold Dec.min.
      destruct (Dec.leb x z); [now left | right; now left].
    + assert (Dec.leb (Dec.min x z) x = true /\
              Dec.leb (Dec.min x z) z = true) as [Hx Hz].
      { unfold Dec.min. destruct (Dec.leb x z) eqn:E.
        - split; [apply DecFacts.leb_refl | exact E].
        - split; [now apply DecFacts.leb_total | apply DecFacts.leb_refl]. }
      pose proof (Hle (Dec.min x z) (or_introl eq_refl)) as Hm.
      intros y [<- | [<- | Hy]].
      * exact (KeyOrder.dec_leb_trans _ _ _ Hm Hx).
      * exact (KeyOrder.dec_leb_trans _ _ _ Hm Hz).
      * apply Hle. now right.
Qed.

Lemma In_map_amount_of x amounts :
  Forall (fun a => exists y, a = VNum y) amounts ->
  (In x (map amount_of amounts) <-> In (VNum x) amounts).
Proof.
  induction 1 as [| a amounts [y ->] _ IH]; simpl; [tauto | ].
  rewrite IH. split; intros [H | H]; auto; left; congruence.
Qed.

(** For an Amount column of numbers, not empty, the maximum and the minimum
    the monthly summary reports are amounts of the table, no amount is
    above the maximum and none is below the minimum. *)
Theorem max_and_min_bound_the_amounts (amounts : Series) :
  amounts <> [] ->
  Forall (fun a => exists x, a = VNum x) amounts ->
  exists hi lo : Dec.t,
    np_max amounts = Ok (SNum (Dec.toQ hi)) /\
    np_min amounts = Ok (SNum (Dec.toQ lo)) /\
    In (VNum hi) amounts /\
    In (VNum lo) amounts /\
    (forall x, In (VNum x) amounts ->
       Dec.leb lo x = true /\ Dec.leb x hi = true).
Proof.
  intros Hne Hnum.
  destruct (numbers_of_all amounts Hnum) as [Hn _].
  pose proof (In_map_amount_of) as Hin.
  unfold np_max, np_min, np_reduce. rewrite Hn.
  destruct (map amount_of amounts) as [| x l] eqn:El.
  { destruct amounts; [congruence | discriminate]. }
  cbn [fold1].
  destruct (fold_max_bounds l x) as [Hmax_in Hmax].
  destruct (fold_min_bounds l x) as [Hmin_in Hmin].
  exists (fold_left Dec.max l x), (fold_left Dec.min l x).
  split; [reflexivity | split; [reflexivity | ]].
  rewrite <- El in *.
  split; [now apply Hin | split; [now apply Hin | ]].
  intros y Hy. apply (Hin y amounts Hnum) in Hy. auto.
Qed.

(** The amounts of the scenario: 30 is the largest, 10 the smallest. *)
Lemma max_and_min_witness :
  exists hi lo : Dec.t,
    np_max [VNum (Dec.Int 10); VNum (Dec.Int 15); VNum (Dec.Int 30)] =
      Ok (SNum (Dec.toQ hi)) /\
    np_min [VNum (Dec.Int 10); VNum (Dec.Int 15); VNum (Dec.Int 30)] =
      Ok (SNum (Dec.toQ lo)) /\
    Dec.leb lo (Dec.Int 15) = true /\ Dec.leb (Dec.Int 15) hi = true.
Proof.
  destruct (max_and_min_bound_the_amounts
              [VNum (Dec.Int 10); VNum (Dec.Int 15); VNum (Dec.Int 30)])
    as (hi & lo & Hmax & Hmin & _ & _ & Hb).
  - discriminate.
  - repeat constructor; eauto.
  - exists hi, lo. split; [exact Hmax | split; [exact Hmin | ]].
    apply Hb. simpl. tauto.
Defined.

(** ** A session of adds *)

Module Turns.




End Turns.


